(** * Verifier: a shallow embedding of [v.py]

    The bulk e-mail verifier checks, per address, the syntax, the existence
    of the domain (A lookup), the presence of MX records and the acceptance
    of the mailbox by an SMTP probe; the bulk runner maps that pipeline over
    a list of addresses with a thread pool.

    Python [str] values are sequences of Unicode code points: they are
    modelled as lists of [N].  Network calls are modelled by an oracle (the
    [world]) that is consulted with the calls made so far; a computation
    either returns, raises a Python exception, or blocks for ever. *)

From Stdlib Require Import NArith ZArith Bool Lia.
From Stdlib Require Import Strings.Ascii Strings.String.
From stdpp Require Import base list.

Local Open Scope N_scope.

(** ** Python strings *)

Definition str : Type := list N.

(** The code points of a literal. *)
Definition py (s : string) : str :=
  List.map N_of_ascii (list_ascii_of_string s).
Arguments py s%_string : simpl never.

Definition chr (a : ascii) : N := N_of_ascii a.
Arguments chr a%_char : simpl never.

(** [s.split(sep)] for a one-character separator: always at least one part. *)
Fixpoint split (sep : N) (s : str) : list str :=
  match s with
  | [] => [[]]
  | c :: s' =>
      if c =? sep then [] :: split sep s'
      else match split sep s' with
           | p :: ps => (c :: p) :: ps
           | [] => [[c]]
           end
  end.

(** [parts[-1]]: the last element, [None] standing for IndexError. *)
Definition index_last {A} (l : list A) : option A := last l.

(** ** The syntax checker

    [re.compile(r"^[a-zA-Z0-9_.+-]+@[a-zA-Z0-9-]+\.[a-zA-Z0-9-.]+$")] *)

Module Re.

(** An item of a bracketed character set. *)
Inductive set_item : Type :=
| Range (lo hi : N)
| Single (c : N).

Definition in_item (c : N) (it : set_item) : bool :=
  match it with
  | Range lo hi => (lo <=? c) && (c <=? hi)
  | Single x => c =? x
  end.

Definition in_set (cs : list set_item) (c : N) : bool :=
  existsb (in_item c) cs.

(** The pattern nodes the verifier's expression is made of: a literal
    character and a set repeated one or more times. *)
Inductive node : Type :=
| Lit (c : N)
| SetPlus (cs : list set_item).

(** [$] without MULTILINE: the end of the string, or just before a line
    feed that is the last character. *)
Definition at_dollar (s : str) : bool :=
  match s with
  | [] => true
  | [c] => c =? 10
  | _ => false
  end.

(** Backtracking match of the nodes [p] followed by [$], anchored at the
    head of [s] (the leading [^] is the anchoring of [re.match]).  A
    repeated set is greedy: it first tries to take one more character. *)
Fixpoint match_here (s : str) (p : list node) {struct s} : bool :=
  match p, s with
  | [], _ => at_dollar s
  | Lit c :: p', x :: s' => (x =? c) && match_here s' p'
  | SetPlus cs :: p', x :: s' =>
      in_set cs x && (match_here s' p || match_here s' p')
  | _ :: _, [] => false
  end.

End Re.

Import Re.

Definition local_set : list set_item :=
  [Range (chr "a") (chr "z"); Range (chr "A") (chr "Z");
   Range (chr "0") (chr "9");
   Single (chr "_"); Single (chr "."); Single (chr "+"); Single (chr "-")].

Definition label_set : list set_item :=
  [Range (chr "a") (chr "z"); Range (chr "A") (chr "Z");
   Range (chr "0") (chr "9"); Single (chr "-")].

Definition tail_set : list set_item :=
  [Range (chr "a") (chr "z"); Range (chr "A") (chr "Z");
   Range (chr "0") (chr "9"); Single (chr "-"); Single (chr ".")].

Definition email_regex : list node :=
  [SetPlus local_set; Lit (chr "@"); SetPlus label_set; Lit (chr ".");
   SetPlus tail_set].

Definition is_valid_email (email : str) : bool :=
  match_here email email_regex.

(** [email.split('@')[1]]; [None] stands for IndexError. *)
Definition get_domain (email : str) : option str :=
  split (chr "@") email !! 1%nat.

(** ** The country inferrer *)

Definition ascii_isalpha (c : N) : bool :=
  ((chr "A" <=? c) && (c <=? chr "Z")) || ((chr "a" <=? c) && (c <=? chr "z")).

Definition ascii_upper (c : N) : N :=
  if (chr "a" <=? c) && (c <=? chr "z") then c - 32 else c.

Definition Unknown : str := py "Unknown".

Section Country.

(** The Unicode character database beyond ASCII, and the table behind
    [pycountry.countries.get(alpha_2=...)]: the name of the country with
    that code, [None] when there is none (reported by [None] or by
    KeyError, depending on the version of the package). *)
Variable unicode_isalpha : N -> bool.
Variable unicode_upper : N -> str.
Variable countries_get : str -> option str.

Definition char_isalpha (c : N) : bool :=
  if c <? 128 then ascii_isalpha c else unicode_isalpha c.

(** [s.isalpha()]: at least one character, all of them alphabetic. *)
Definition isalpha (s : str) : bool :=
  match s with
  | [] => false
  | _ => forallb char_isalpha s
  end.

(** [s.upper()]. *)
Definition upper (s : str) : str :=
  flat_map (fun c => if c <? 128 then [ascii_upper c] else unicode_upper c) s.

Definition get_country_by_domain (domain : str) : str :=
  let parts := split (chr ".") domain in
  match index_last parts with
  | None => Unknown
  | Some tld =>
      if (1 <? length parts)%nat && isalpha tld && (length tld =? 2)%nat
      then
        let country_code := upper tld in
        match countries_get country_code with
        | Some name => name
        | None => Unknown
        end
      else Unknown
  end.

End Country.

(** ** Effects: exceptions, blocking calls and the network *)

Inductive exn : Type :=
| NXDOMAIN | NoAnswer | NoNameservers | LifetimeTimeout | EmptyLabel
| IndexError
| ConnectionRefusedError | TimeoutError
| SMTPConnectError | SMTPServerDisconnected.

Inductive result (T : Type) : Type :=
| Ret (v : T)
| Raise (e : exn)
| Hang.
Arguments Ret {T} v.
Arguments Raise {T} e.
Arguments Hang {T}.

(** The record types queried: ['A'] and ['MX']. *)
Inductive rdtype : Type := RdA | RdMX.

Inductive command : Type :=
| HELO
| MAIL (sender : str)
| RCPT (recip : str)
| QUIT.

Inductive request : Type :=
| Resolve (domain : str) (rd : rdtype)
| Connect (host : str)
| Command (c : command).

(** What the network does with one call: it answers, the call fails with an
    exception, or the peer stays silent. *)
Inductive net (T : Type) : Type :=
| Ok (v : T)
| Fails (e : exn)
| Silent.
Arguments Ok {T} v.
Arguments Fails {T} e.
Arguments Silent {T}.

(** The network as one pipeline run sees it; every answer may depend on the
    calls made before.  A DNS answer is the list of its records (for MX, the
    exchange host of each, in answer order); an SMTP reply is a code and a
    message. *)
Record world : Type := World {
  dns : list request -> str -> rdtype -> net (list str);
  smtp_open : list request -> str -> net unit;
  smtp_reply : list request -> command -> net (Z * str)
}.

(** A blocking call under an optional timeout. *)
Definition await {T} (timeout : option N) (expired : exn) (r : net T) : result T :=
  match r with
  | Ok v => Ret v
  | Fails e => Raise e
  | Silent => match timeout with
              | Some _ => Raise expired
              | None => Hang
              end
  end.

(** The calls made so far, and the SMTP sessions opened and not yet quit. *)
Record state : Type := State {
  log : list request;
  sessions : nat
}.

Definition st0 : state := State [] 0.

Definition M (T : Type) : Type := state -> result T * state.

Definition ret {T} (v : T) : M T := fun st => (Ret v, st).

Definition raise {T} (e : exn) : M T := fun st => (Raise e, st).

Definition bind {T U} (m : M T) (k : T -> M U) : M U :=
  fun st =>
    match m st with
    | (Ret v, st') => k v st'
    | (Raise e, st') => (Raise e, st')
    | (Hang, st') => (Hang, st')
    end.

Notation "'let*' x ':=' m 'in' k" := (bind m (fun x => k))
  (at level 10, x name, m at level 100, k at level 200).

(** [try: m except <handles>: h]. *)
Definition try_except {T} (m : M T) (handles : exn -> bool) (h : M T) : M T :=
  fun st =>
    match m st with
    | (Raise e, st') => if handles e then h st' else (Raise e, st')
    | other => other
    end.

Definition index {T} (l : list T) (i : nat) : M T :=
  match l !! i with
  | Some v => ret v
  | None => raise IndexError
  end.

Definition from_option {T} (o : option T) : M T :=
  match o with
  | Some v => ret v
  | None => raise IndexError
  end.

(** *** dns.resolver *)

(** The default resolver gives up after its lifetime (in seconds). *)
Definition resolver_lifetime : option N := Some 5.

Definition resolve (w : world) (domain : str) (rd : rdtype) : M (list str) :=
  fun st =>
    (await resolver_lifetime LifetimeTimeout (dns w (log st) domain rd),
     State (log st ++ [Resolve domain rd]) (sessions st)).

(** *** smtplib *)

Record SMTP : Type := Server {
  host : str;
  timeout : option N
}.

(** [socket._GLOBAL_DEFAULT_TIMEOUT]: the program never calls
    [socket.setdefaulttimeout], so sockets block without limit. *)
Definition global_default_timeout : option N := None.

(** [smtplib.SMTP(host)]: connects and reads the greeting. *)
Definition smtp_new (w : world) (h : str) : M SMTP :=
  fun st =>
    let server := Server h global_default_timeout in
    let log' := log st ++ [Connect h] in
    match await (timeout server) TimeoutError (smtp_open w (log st) h) with
    | Ret _ => (Ret server, State log' (S (sessions st)))
    | Raise e => (Raise e, State log' (sessions st))
    | Hang => (Hang, State log' (sessions st))
    end.

Definition docmd (w : world) (server : SMTP) (c : command) : M (Z * str) :=
  fun st =>
    (await (timeout server) TimeoutError (smtp_reply w (log st) c),
     State (log st ++ [Command c]) (sessions st)).

Definition helo w server := docmd w server HELO.
Definition mail w server sender := docmd w server (MAIL sender).
Definition rcpt w server recip := docmd w server (RCPT recip).

(** [server.quit()] ends the session once the reply is in. *)
Definition quit (w : world) (server : SMTP) : M (Z * str) :=
  fun st =>
    match docmd w server QUIT st with
    | (Ret r, st') => (Ret r, State (log st') (pred (sessions st')))
    | other => other
    end.

(** ** The domain resolver and the mailbox prober *)

(** [try: resolve(domain, 'A'); return True / except NXDOMAIN: return False] *)
Definition domain_exists (w : world) (domain : str) : M bool :=
  try_except
    (let* _ := resolve w domain RdA in ret true)
    (fun e => match e with NXDOMAIN => true | _ => false end)
    (ret false).

(** [except (NoAnswer, NXDOMAIN): return False] *)
Definition has_mx_records (w : world) (domain : str) : M bool :=
  try_except
    (let* mx_records := resolve w domain RdMX in
     ret (0 <? length mx_records)%nat)
    (fun e => match e with NoAnswer | NXDOMAIN => true | _ => false end)
    (ret false).

(** [get_domain] is called before the [try]; the bare [except] handles
    every exception of the block.  [server.set_debuglevel(0)] makes no call
    to the network and is left out. *)
Definition smtp_verify (w : world) (email : str) : M bool :=
  let* domain := from_option (get_domain email) in
  try_except
    (let* mx_records := resolve w domain RdMX in
     let* mx_record := index mx_records 0 in
     let* server := smtp_new w mx_record in
     let* _ := helo w server in
     let* _ := mail w server (py "test@example.com") in
     let* reply := rcpt w server email in
     let '(code, message) := reply in
     let* _ := quit w server in
     ret (code =? 250)%Z)
    (fun _ => true)
    (ret false).

(** ** The verification pipeline *)

(** The tuple [(email, is_valid, status, country)]. *)
Record verification : Type := Verification {
  v_email : str;
  v_is_valid : bool;
  v_status : str;
  v_country : str
}.

Section Pipeline.

Variable unicode_isalpha : N -> bool.
Variable unicode_upper : N -> str.
Variable countries_get : str -> option str.

Let country_of := get_country_by_domain unicode_isalpha unicode_upper countries_get.

Definition verify_email (w : world) (email : str) : M verification :=
  if negb (is_valid_email email) then
    ret (Verification email false (py "Invalid Email Syntax") Unknown)
  else
    let* domain := from_option (get_domain email) in
    let* exists_ := domain_exists w domain in
    if negb exists_ then
      ret (Verification email false (py "Domain Does Not Exist") Unknown)
    else
      let* has_mx := has_mx_records w domain in
      if negb has_mx then
        ret (Verification email false (py "No MX Records") Unknown)
      else
        let* verified := smtp_verify w email in
        if negb verified then
          ret (Verification email false (py "Email Not Verified")
                 (country_of domain))
        else
          ret (Verification email true (py "Verified") (country_of domain)).

(** *** The bulk runner

    [executor.map] submits one task per address and hands the results
    back in submission order; the worker threads finish the tasks in an
    order of their own, the schedule.  Each task sees the network through
    a world of its own. *)

Definition task (worlds : nat -> world) (i : nat) (email : str)
  : result verification :=
  fst (verify_email (worlds i) email st0).

(** A future holds the outcome of its task once a worker is through with
    it. *)
Definition future : Type := option (result verification).

Definition run_task (tasks : list (result verification))
    (futures : list future) (i : nat) : list future :=
  match tasks !! i with
  | Some outcome => <[i := Some outcome]> futures
  | None => futures
  end.

Definition run_workers (tasks : list (result verification))
    (schedule : list nat) : list future :=
  foldl (run_task tasks) (replicate (length tasks) None) schedule.

(** [list(...)] over the result iterator: [future.result()] of each
    future in turn; it waits for a future that is not done and re-raises
    the exception of a task that raised. *)
Fixpoint gather (futures : list future) : result (list verification) :=
  match futures with
  | [] => Ret []
  | Some (Ret v) :: rest =>
      match gather rest with
      | Ret vs => Ret (v :: vs)
      | other => other
      end
  | Some (Raise e) :: _ => Raise e
  | Some Hang :: _ | None :: _ => Hang
  end.

Definition blocked (f : future) : bool :=
  match f with
  | Some Hang => true
  | _ => false
  end.

(** Leaving the [with] block waits for the workers that are still
    running. *)
Definition verify_bulk_emails (worlds : nat -> world) (emails : list str)
    (schedule : list nat) : result (list verification) :=
  let futures := run_workers (imap (task worlds) emails) schedule in
  match gather futures with
  | Raise e => if existsb blocked futures then Hang else Raise e
  | results => results
  end.

End Pipeline.

(** ** The address format, as a set of strings *)

(** One or more characters, all of the set [cs]. *)
Definition run_of (cs : list set_item) (s : str) : Prop :=
  s <> [] /\ forallb (in_set cs) s = true.

(** local part, [@], first label, [.], trailing part drawn from [tail]. *)
Definition address_shape (tail : list set_item) (s : str) : Prop :=
  exists l d t,
    s = l ++ chr "@" :: d ++ chr "." :: t
    /\ run_of local_set l /\ run_of label_set d /\ run_of tail t.

(** The pattern as the specification words it: the trailing part is made of
    dots and alphanumeric characters. *)
Definition spec_tail_set : list set_item :=
  [Range (chr "a") (chr "z"); Range (chr "A") (chr "Z");
   Range (chr "0") (chr "9"); Single (chr ".")].

Definition spec_pattern (s : str) : Prop := address_shape spec_tail_set s.

(** The pattern of the compiled expression: hyphens too in the trailing
    part. *)
Definition code_pattern (s : str) : Prop := address_shape tail_set s.

(** A letter, a digit, a hyphen or a dot. *)
Definition tail_char (c : N) : bool :=
  ascii_isalpha c || ((chr "0" <=? c) && (c <=? chr "9"))
  || (c =? chr "-") || (c =? chr ".").

Definition ends_with_newline (s : str) : Prop := last s = Some 10.

(** ** The country inferrer as the specification words it

    No condition on the number of labels: the last label alone decides. *)
Definition spec_inferCountry (unicode_isalpha : N -> bool)
    (unicode_upper : N -> str) (countries_get : str -> option str)
    (domain : str) : str :=
  match index_last (split (chr ".") domain) with
  | None => Unknown
  | Some tld =>
      if isalpha unicode_isalpha tld && (length tld =? 2)%nat
      then match countries_get (upper unicode_upper tld) with
           | Some name => name
           | None => Unknown
           end
      else Unknown
  end.

(** ** Concrete instances *)

Fixpoint str_eqb (s t : str) : bool :=
  match s, t with
  | [], [] => true
  | c :: s', d :: t' => (c =? d) && str_eqb s' t'
  | _, _ => false
  end.

(** Modelled from the spec: the static table from two-letter country codes
    to country names, of which the package [pycountry] (not part of the
    sources) holds the full ISO 3166-1 list; a subset of it. *)
Definition sample_countries (code : str) : option str :=
  if str_eqb code (py "DE") then Some (py "Germany")
  else if str_eqb code (py "FR") then Some (py "France")
  else if str_eqb code (py "GB") then Some (py "United Kingdom")
  else if str_eqb code (py "JP") then Some (py "Japan")
  else None.

(** Stand-ins for the Unicode database, for ASCII inputs. *)
Definition ascii_only_isalpha (c : N) : bool := false.
Definition ascii_only_upper (c : N) : str := [c].

(** A network where every lookup is answered with one record, every
    connection is accepted and every command gets [250]. *)
Definition friendly : world :=
  World (fun _ _ _ => Ok [py "mx.example.com."])
        (fun _ _ => Ok tt)
        (fun _ _ => Ok (250%Z, py "OK")).

(** The name does not exist. *)
Definition absent : world :=
  World (fun _ _ _ => Fails NXDOMAIN) (smtp_open friendly) (smtp_reply friendly).

(** The name has an A record and no MX record. *)
Definition no_mx : world :=
  World (fun _ _ rd => match rd with
                       | RdA => Ok [py "192.0.2.1"]
                       | RdMX => Fails NoAnswer
                       end)
        (smtp_open friendly) (smtp_reply friendly).

(** The A lookup finds the name but no A record; the MX lookup is answered. *)
Definition mx_only : world :=
  World (fun _ _ rd => match rd with
                       | RdA => Fails NoAnswer
                       | RdMX => Ok [py "mx.example.com."]
                       end)
        (smtp_open friendly) (smtp_reply friendly).

(** The A lookup gets no reply from the name servers. *)
Definition dns_down : world :=
  World (fun _ _ _ => Silent) (smtp_open friendly) (smtp_reply friendly).

(** The exchanger answers [RCPT] with [550]. *)
Definition rejecting : world :=
  World (dns friendly) (smtp_open friendly)
        (fun _ c => match c with
                    | RCPT _ => Ok (550%Z, py "No such user")
                    | _ => Ok (250%Z, py "OK")
                    end).

(** The exchanger refuses the connection. *)
Definition refusing : world :=
  World (dns friendly) (fun _ _ => Fails ConnectionRefusedError)
        (smtp_reply friendly).

(** The exchanger never answers the connection attempt. *)
Definition unresponsive : world :=
  World (dns friendly) (fun _ _ => Silent) (smtp_reply friendly).

(** The exchanger accepts the connection and drops it at [HELO]. *)
Definition dropping : world :=
  World (dns friendly) (smtp_open friendly)
        (fun _ c => match c with
                    | HELO => Fails SMTPServerDisconnected
                    | _ => Ok (250%Z, py "OK")
                    end).

(** The log only grows. *)
Definition extends (st st' : state) : Prop :=
  exists more, log st' = log st ++ more.

Definition growing {T} (m : M T) : Prop :=
  forall st, extends st (snd (m st)).

(** A schedule that lets every one of [n] tasks finish. *)
Definition fair (schedule : list nat) (n : nat) : Prop :=
  forall i, (i < n)%nat -> i ∈ schedule.

(** ** The address files and the console

    [save_valid_emails] and [main].  A text file is the [str] that Python's
    text mode reads or writes; the file system is an oracle that grants or
    refuses to open a file. *)

(** [c.isspace()] on ASCII: TAB to CR, FS to US, and the space. *)
Definition ascii_isspace (c : N) : bool :=
  ((9 <=? c) && (c <=? 13)) || ((28 <=? c) && (c <=? 31)) || (c =? 32).

(** Iterating over a text file: the lines, each with its line feed, the
    last one without when the text does not end with one. *)
Fixpoint file_lines (text : str) : list str :=
  match text with
  | [] => []
  | c :: text' =>
      if c =? 10 then [c] :: file_lines text'
      else match file_lines text' with
           | line :: lines => (c :: line) :: lines
           | [] => [[c]]
           end
  end.

Section Strip.

(** Whitespace beyond ASCII, from the Unicode character database. *)
Variable unicode_isspace : N -> bool.

Definition isspace (c : N) : bool :=
  if c <? 128 then ascii_isspace c else unicode_isspace c.

Fixpoint lstrip (s : str) : str :=
  match s with
  | [] => []
  | c :: s' => if isspace c then lstrip s' else s
  end.

Fixpoint rstrip (s : str) : str :=
  match s with
  | [] => []
  | c :: s' =>
      match rstrip s' with
      | [] => if isspace c then [] else [c]
      | kept => c :: kept
      end
  end.

(** [s.strip()]. *)
Definition strip (s : str) : str := rstrip (lstrip s).

(** A [str] is true when it is not empty. *)
Definition truthy (s : str) : bool :=
  match s with
  | [] => false
  | _ => true
  end.

(** [[line.strip() for line in file if line.strip()]] *)
Definition read_emails (text : str) : list str :=
  List.map strip (List.filter (fun line => truthy (strip line)) (file_lines text)).

End Strip.

(** The loop of [save_valid_emails]: one [file.write] per accepted result,
    [file] being what was written so far. *)
Definition write_valid (results : list verification) (file : str) : str :=
  foldl (fun file r => if v_is_valid r then file ++ (v_email r ++ [10]) else file)
    file results.

Inductive os_error : Type :=
| FileNotFoundError | PermissionError | IsADirectoryError.

Inductive opened (T : Type) : Type :=
| Granted (v : T)
| Refused (e : os_error).
Arguments Granted {T} v.
Arguments Refused {T} e.

(** [open(name, 'r')] gives the text of the file, [open(name, 'w')] an
    empty file to write to, unless the system refuses. *)
Record filesystem : Type := FileSystem {
  open_read : str -> opened str;
  open_write : str -> opened unit
}.

(** What the file holds when [save_valid_emails] returns. *)
Definition save_valid_emails (fs : filesystem) (results : list verification)
    (filename : str) : opened str :=
  match open_write fs filename with
  | Granted _ => Granted (write_valid results [])
  | Refused e => Refused e
  end.

(** What [main] shows: the prompt of [input] and the texts it prints. *)
Inductive shown : Type :=
| Prompt (text : str)
| Print (text : str).

(** What can go wrong in a [print]: the terminal is gone, or it cannot
    encode the text. *)
Inductive console_error : Type :=
| BrokenPipeError | UnicodeEncodeError.

(** The terminal: whether [print(text)] succeeds, given what was shown
    before. *)
Definition terminal : Type := list shown -> str -> option console_error.

(** How a run of [main] ends: it returns, an exception leaves it (one of
    the file system, one of a [print], or one handed on by the bulk
    runner), or it never ends. *)
Inductive ending : Type :=
| Returned
| OSError (e : os_error)
| ConsoleError (e : console_error)
| Escaped (e : exn)
| Blocked.

Record run : Type := Run {
  ended : ending;
  saved : list (str * str);
  console : list shown
}.

Section Main.

Variable unicode_isalpha : N -> bool.
Variable unicode_upper : N -> str.
Variable countries_get : str -> option str.
Variable unicode_isspace : N -> bool.

(** [colorama.Fore.GREEN] and [colorama.Fore.RED]. *)
Variable Fore_GREEN : str.
Variable Fore_RED : str.

Definition not_found_text : str :=
  Fore_RED ++ py "The specified file was not found. Please try again.".

Definition not_found : shown := Print not_found_text.

Definition prompt : shown :=
  Prompt (py "Please enter the filename containing the email leads: ").

(** The texts printed one after the other, up to the first [print] that
    raises: the exception, if any, and what is on the console then. *)
Fixpoint print_all (term : terminal) (console : list shown)
    (texts : list str) : option console_error * list shown :=
  match texts with
  | [] => (None, console)
  | text :: texts' =>
      match term console text with
      | Some e => (Some e, console)
      | None => print_all term (console ++ [Print text]) texts'
      end
  end.

Definition report_text (r : verification) : str :=
  if v_is_valid r then
    v_email r ++ py " - " ++ Fore_GREEN ++ v_status r ++ py " - " ++ v_country r
  else
    v_email r ++ py " - " ++ Fore_RED ++ v_status r ++ py " - " ++ v_country r.

Definition report (r : verification) : shown := Print (report_text r).

(** The handler of FileNotFoundError. *)
Definition say_not_found (term : terminal) : run :=
  match print_all term [prompt] [not_found_text] with
  | (None, console) => Run Returned [] console
  | (Some e, console) => Run (ConsoleError e) [] console
  end.

(** [input_file] is the answer typed at the prompt.  The handler of
    FileNotFoundError covers the whole body, the opening of the output file
    included; the results are printed once the output file is written and
    closed. *)
Definition main (fs : filesystem) (term : terminal) (worlds : nat -> world)
    (schedule : list nat) (input_file : str) : run :=
  match open_read fs input_file with
  | Refused FileNotFoundError => say_not_found term
  | Refused e => Run (OSError e) [] [prompt]
  | Granted text =>
      let emails := read_emails unicode_isspace text in
      match verify_bulk_emails unicode_isalpha unicode_upper countries_get
              worlds emails schedule with
      | Raise e => Run (Escaped e) [] [prompt]
      | Hang => Run Blocked [] [prompt]
      | Ret results =>
          match save_valid_emails fs results (py "valid_emails.txt") with
          | Refused FileNotFoundError => say_not_found term
          | Refused e => Run (OSError e) [] [prompt]
          | Granted file =>
              match print_all term [prompt] (List.map report_text results) with
              | (None, console) =>
                  Run Returned [(py "valid_emails.txt", file)] console
              | (Some e, console) =>
                  Run (ConsoleError e) [(py "valid_emails.txt", file)] console
              end
          end
      end
  end.

End Main.

(** A file system with one readable file. *)
Definition one_file (name text : str) : filesystem :=
  FileSystem (fun n => if str_eqb n name then Granted text
                       else Refused FileNotFoundError)
             (fun _ => Granted tt).

(** The calls of a probe that runs to its end, in their order. *)
Definition dialogue (domain mx email : str) : list request :=
  [Resolve domain RdMX; Connect mx; Command HELO;
   Command (MAIL (py "test@example.com")); Command (RCPT email); Command QUIT].

(** The exchanger accepts the recipient and drops the connection at QUIT. *)
Definition hanging_up : world :=
  World (dns friendly) (smtp_open friendly)
        (fun _ c => match c with
                    | QUIT => Fails SMTPServerDisconnected
                    | _ => Ok (250%Z, py "OK")
                    end).

(** A stand-in for the Unicode database, for ASCII texts. *)
Definition ascii_only_isspace (c : N) : bool := false.

(** A string with its ends free of whitespace and no line feed in it. *)
Definition clean (unicode_isspace : N -> bool) (e : str) : Prop :=
  (10 ∉ e)
  /\ exists c r d,
       head e = Some c /\ isspace unicode_isspace c = false
       /\ e = r ++ [d] /\ isspace unicode_isspace d = false.

(** The lines [save_valid_emails] writes for a list of results. *)
Definition valid_lines (results : list verification) : str :=
  concat (List.map (fun r => v_email r ++ [10])
            (List.filter v_is_valid results)).

(** A terminal that shows everything, and one that is gone after the
    prompt and one more line. *)
Definition steady : terminal := fun _ _ => None.

Definition closing : terminal :=
  fun console _ =>
    if (2 <=? length console)%nat then Some BrokenPipeError else None.

(** The escape sequences [colorama] has for green and red. *)
Definition sample_green : str := 27 :: py "[32m".
Definition sample_red : str := 27 :: py "[31m".

(** A run of [main] on a file of two lines, on the terminal [term]. *)
Definition sample_run (term : terminal) : run :=
  main ascii_only_isalpha ascii_only_upper sample_countries ascii_only_isspace
    sample_green sample_red
    (one_file (py "leads.txt") (py "a@b.de" ++ [10] ++ py "bad"))
    term (fun _ => friendly) [1; 0]%nat (py "leads.txt").

(** ** The two ways in which a probe does not succeed *)

(** The exchanger answers every call of the probe, and answers RCPT with a
    code other than 250. *)
Definition explicit_rejection (w : world) (email domain : str) (st : state)
  : Prop :=
  exists mx others r1 r2 code message r4,
    dns w (log st) domain RdMX = Ok (mx :: others)
    /\ smtp_open w (log st ++ [Resolve domain RdMX]) mx = Ok tt
    /\ smtp_reply w (log st ++ [Resolve domain RdMX; Connect mx]) HELO = Ok r1
    /\ smtp_reply w (log st ++ [Resolve domain RdMX; Connect mx; Command HELO])
         (MAIL (py "test@example.com")) = Ok r2
    /\ smtp_reply w
         (log st ++ [Resolve domain RdMX; Connect mx; Command HELO;
                     Command (MAIL (py "test@example.com"))])
         (RCPT email) = Ok (code, message)
    /\ code <> 250%Z
    /\ smtp_reply w
         (log st ++ [Resolve domain RdMX; Connect mx; Command HELO;
                     Command (MAIL (py "test@example.com"));
                     Command (RCPT email)])
         QUIT = Ok r4.

(** The probe cannot be completed: the MX lookup brings no record (an
    empty answer, an error, no reply in time), or the connection or one of
    the commands fails with an error (refused, lost, timed out by the
    system, a broken reply). *)
Definition probe_failure (w : world) (email domain : str) (st : state)
  : Prop :=
  dns w (log st) domain RdMX = Ok []
  \/ (exists e, dns w (log st) domain RdMX = Fails e)
  \/ dns w (log st) domain RdMX = Silent
  \/ exists mx others,
       dns w (log st) domain RdMX = Ok (mx :: others)
       /\ ((exists e, smtp_open w (log st ++ [Resolve domain RdMX]) mx = Fails e)
           \/ (smtp_open w (log st ++ [Resolve domain RdMX]) mx = Ok tt
               /\ ((exists e,
                      smtp_reply w (log st ++ [Resolve domain RdMX; Connect mx])
                        HELO = Fails e)
                   \/ exists r1,
                        smtp_reply w
                          (log st ++ [Resolve domain RdMX; Connect mx]) HELO
                        = Ok r1
                        /\ ((exists e,
                               smtp_reply w
                                 (log st ++ [Resolve domain RdMX; Connect mx;
                                             Command HELO])
                                 (MAIL (py "test@example.com")) = Fails e)
                            \/ exists r2,
                                 smtp_reply w
                                   (log st ++ [Resolve domain RdMX; Connect mx;
                                               Command HELO])
                                   (MAIL (py "test@example.com")) = Ok r2
                                 /\ ((exists e,
                                        smtp_reply w
                                          (log st ++ [Resolve domain RdMX;
                                                      Connect mx; Command HELO;
                                                      Command (MAIL (py "test@example.com"))])
                                          (RCPT email) = Fails e)
                                     \/ exists reply e,
                                          smtp_reply w
                                            (log st ++ [Resolve domain RdMX;
                                                        Connect mx; Command HELO;
                                                        Command (MAIL (py "test@example.com"))])
                                            (RCPT email) = Ok reply
                                          /\ smtp_reply w
                                               (log st ++ [Resolve domain RdMX;
                                                           Connect mx;
                                                           Command HELO;
                                                           Command (MAIL (py "test@example.com"));
                                                           Command (RCPT email)])
                                               QUIT = Fails e))))).

(** ** The socket of a session

    What [smtplib] does with the socket: the constructor opens it, and
    closes it again before it raises when the greeting fails; sending a
    command and reading its reply close it before they raise; [quit] closes
    it once its reply is in. *)
Inductive socket : Type := Unopened | Connected | Shut.

Definition socket_step (w : world) (before : list request) (r : request)
    (s : socket) : socket :=
  match r with
  | Resolve _ _ => s
  | Connect h =>
      match smtp_open w before h with
      | Ok _ => Connected
      | Fails _ => Shut
      | Silent => Connected
      end
  | Command c =>
      match smtp_reply w before c with
      | Ok _ => match c with QUIT => Shut | _ => s end
      | Fails _ => Shut
      | Silent => s
      end
  end.

(** The socket after the calls [calls], made after the calls [before]. *)
Fixpoint socket_after (w : world) (before calls : list request) (s : socket)
  : socket :=
  match calls with
  | [] => s
  | r :: calls' =>
      socket_after w (before ++ [r]) calls' (socket_step w before r s)
  end.

(** * Properties *)

(** ** The matcher *)

Lemma at_dollar_true (s : str) :
  at_dollar s = true <-> s = [] \/ s = [10].
Proof.
  destruct s as [|c [|d s]]; simpl.
  - split; auto.
  - rewrite N.eqb_eq. split.
    + intros ->. now right.
    + intros [H|H]; congruence.
  - split; [discriminate | intros [H|H]; discriminate].
Qed.

Lemma match_here_end (s : str) :
  match_here s [] = true <-> s = [] \/ s = [10].
Proof. destruct s; apply at_dollar_true. Qed.

Lemma match_here_lit (c : N) (p : list node) (s : str) :
  match_here s (Lit c :: p) = true <->
  exists s', s = c :: s' /\ match_here s' p = true.
Proof.
  destruct s as [|x s]; simpl.
  - split; [discriminate | intros (s' & H & _); discriminate].
  - rewrite andb_true_iff, N.eqb_eq. split.
    + intros [-> H]. eauto.
    + intros (s' & H & Hm). injection H as -> ->. auto.
Qed.

Lemma match_here_set_plus (cs : list set_item) (p : list node) (s : str) :
  match_here s (SetPlus cs :: p) = true <->
  exists l r, s = l ++ r /\ run_of cs l /\ match_here r p = true.
Proof.
  induction s as [|x s IH]; simpl.
  - split; [discriminate|].
    intros (l & r & H & [Hne _] & _).
    destruct l; [congruence | discriminate].
  - rewrite andb_true_iff, orb_true_iff. split.
    + intros [Hx [Hmore | Hstop]].
      * apply IH in Hmore as (l & r & -> & [_ Hl] & Hr).
        exists (x :: l), r. repeat split; auto.
        simpl. now rewrite Hx.
      * exists [x], s. repeat split; auto.
        simpl. now rewrite Hx.
    + intros (l & r & H & [Hne Hl] & Hr).
      destruct l as [|y l]; [congruence|].
      simpl in H. injection H as -> ->.
      simpl in Hl. apply andb_true_iff in Hl as [Hy Hl].
      split; [assumption|].
      destruct l as [|z l].
      * right. exact Hr.
      * left. apply IH. exists (z :: l), r. repeat split; auto.
Qed.

(** The compiled expression accepts exactly the strings of the code's
    pattern, optionally followed by one line feed. *)
Lemma is_valid_email_iff (email : str) :
  is_valid_email email = true <->
  exists body nl,
    email = body ++ nl /\ (nl = [] \/ nl = [10]) /\ code_pattern body.
Proof.
  unfold is_valid_email, email_regex, code_pattern, address_shape.
  rewrite match_here_set_plus. split.
  - intros (l & r & -> & Hl & Hr).
    apply match_here_lit in Hr as (r1 & -> & Hr).
    apply match_here_set_plus in Hr as (d & r2 & -> & Hd & Hr).
    apply match_here_lit in Hr as (r3 & -> & Hr).
    apply match_here_set_plus in Hr as (t & nl & -> & Ht & Hr).
    apply match_here_end in Hr.
    exists (l ++ chr "@" :: d ++ chr "." :: t), nl. split.
    + rewrite <- !app_assoc. simpl. rewrite <- !app_assoc. reflexivity.
    + split; [assumption|]. exists l, d, t. auto.
  - intros (body & nl & -> & Hnl & l & d & t & -> & Hl & Hd & Ht).
    exists l, ((chr "@" :: d ++ chr "." :: t) ++ nl). split.
    + now rewrite <- app_assoc.
    + split; [assumption|].
      apply match_here_lit. exists ((d ++ chr "." :: t) ++ nl).
      split; [reflexivity|].
      apply match_here_set_plus.
      exists d, ((chr "." :: t) ++ nl). split.
      * now rewrite <- app_assoc.
      * split; [assumption|].
        apply match_here_lit. exists (t ++ nl). split; [reflexivity|].
        apply match_here_set_plus. exists t, nl.
        repeat split; try apply Ht. now apply match_here_end.
Qed.

Lemma run_of_avoids (cs : list set_item) (sep : N) (s : str) :
  in_set cs sep = false -> forallb (in_set cs) s = true -> sep ∉ s.
Proof.
  intros Hsep. induction s as [|c s IH]; simpl.
  - intros _. apply not_elem_of_nil.
  - rewrite andb_true_iff. intros [Hc Hs].
    apply not_elem_of_cons. split; [|auto].
    intros ->. congruence.
Qed.

Lemma run_of_last (cs : list set_item) (s : str) :
  run_of cs s -> exists c, last s = Some c /\ in_set cs c = true.
Proof.
  intros [Hne Hall].
  destruct (last s) as [c|] eqn:Hlast.
  - exists c. split; [reflexivity|].
    apply last_Some in Hlast as [s' ->].
    rewrite forallb_app in Hall. apply andb_true_iff in Hall as [_ Hc].
    simpl in Hc. now rewrite andb_true_r in Hc.
  - apply last_None in Hlast. contradiction.
Qed.

(** A string of the shape ends with a character of the trailing set. *)
Lemma address_shape_last (tail : list set_item) (s : str) :
  address_shape tail s -> exists c, last s = Some c /\ in_set tail c = true.
Proof.
  intros (l & d & t & -> & _ & _ & Ht).
  destruct (run_of_last _ _ Ht) as (c & Hlast & Hc).
  exists c. split; [|assumption].
  apply last_Some in Hlast as [t' ->].
  change (l ++ chr "@" :: d ++ chr "." :: t' ++ [c])
    with (l ++ (chr "@" :: d) ++ (chr "." :: t') ++ [c]).
  rewrite !app_assoc. apply last_snoc.
Qed.

(** ** Splitting *)

Lemma split_no_sep (sep : N) (s : str) :
  sep ∉ s -> split sep s = [s].
Proof.
  induction s as [|c s IH]; simpl; [reflexivity|].
  intros [Hc Hs]%not_elem_of_cons.
  destruct (N.eqb_spec c sep) as [->|_]; [congruence|].
  now rewrite IH.
Qed.

(** The labels of [pre ++ sep :: lbl]: those before the last separator,
    at least one, and then [lbl]. *)
Lemma split_last_label (sep : N) (pre lbl : str) :
  sep ∉ lbl ->
  exists parts, parts <> [] /\ split sep (pre ++ sep :: lbl) = parts ++ [lbl].
Proof.
  intros Hlbl. induction pre as [|c pre (parts & Hne & IH)]; simpl.
  - rewrite N.eqb_refl, (split_no_sep _ _ Hlbl). now exists [[]].
  - rewrite IH. destruct (c =? sep).
    + now exists ([] :: parts).
    + destruct parts as [|p ps]; [congruence|].
      now exists ((c :: p) :: ps).
Qed.

Lemma split_first (sep : N) (l r : str) :
  sep ∉ l -> split sep (l ++ sep :: r) = l :: split sep r.
Proof.
  induction l as [|c l IH]; simpl.
  - intros _. now rewrite N.eqb_refl.
  - intros [Hc Hl]%not_elem_of_cons.
    destruct (N.eqb_spec c sep) as [->|_]; [congruence|].
    now rewrite IH.
Qed.

(** An accepted address has exactly one [@], so [get_domain] finds what
    follows it. *)
Lemma valid_get_domain (email : str) :
  is_valid_email email = true ->
  exists l domain, email = l ++ chr "@" :: domain /\ get_domain email = Some domain.
Proof.
  intros (body & nl & -> & Hnl & l & d & t & -> & [_ Hl] & [_ Hd] & [_ Ht])
    %is_valid_email_iff.
  exists l, ((d ++ chr "." :: t) ++ nl). split.
  - now rewrite <- app_assoc.
  - unfold get_domain. rewrite <- app_assoc.
    change ((chr "@" :: d ++ chr "." :: t) ++ nl)
      with (chr "@" :: (d ++ chr "." :: t) ++ nl).
    rewrite split_first by (eapply run_of_avoids; [|exact Hl]; reflexivity).
    rewrite split_no_sep; [reflexivity|].
    rewrite !not_elem_of_app, not_elem_of_cons. repeat split.
    + eapply run_of_avoids; [|exact Hd]; reflexivity.
    + discriminate.
    + eapply run_of_avoids; [|exact Ht]; reflexivity.
    + destruct Hnl as [-> | ->].
      * apply not_elem_of_nil.
      * rewrite list_elem_of_singleton. discriminate.
Qed.

(** ** The syntax checker *)

Example is_valid_email_plain : is_valid_email (py "a.b+c@mail-1.example.org") = true.
Proof. reflexivity. Qed.

Example is_valid_email_no_dot : is_valid_email (py "user@localhost") = false.
Proof. reflexivity. Qed.

Example is_valid_email_line_feed :
  is_valid_email (py "user@example.com" ++ [10]) = true.
Proof. reflexivity. Qed.

(** C7, as the claim states it, fails: the address [user@a.-] is accepted
    although its trailing part, a hyphen, is neither a dot nor alphanumeric,
    so that the string is not of the claimed pattern. *)
Lemma is_valid_email_hyphen_tail :
  ~ (is_valid_email (py "user@a.-") = true <-> spec_pattern (py "user@a.-")).
Proof.
  intros [Hspec _].
  destruct (address_shape_last _ _ (Hspec eq_refl)) as (c & Hlast & Hc).
  vm_compute in Hlast. injection Hlast as <-.
  vm_compute in Hc. discriminate.
Qed.

(** C7 (amended): a string that does not end with a line feed is accepted
    iff it is one or more characters of [[A-Za-z0-9_.+-]], an [@], one or
    more characters of [[A-Za-z0-9-]], a dot, and one or more characters of
    [[A-Za-z0-9.-]] (dots, alphanumerics and hyphens); [user@example.com] is
    accepted, [not-an-email] and [user@@example.com] are rejected. *)
Theorem is_valid_email_pattern :
  (forall s : str,
      ~ ends_with_newline s -> (is_valid_email s = true <-> code_pattern s))
  /\ is_valid_email (py "user@example.com") = true
  /\ is_valid_email (py "not-an-email") = false
  /\ is_valid_email (py "user@@example.com") = false.
Proof.
  split; [|repeat split; reflexivity].
  intros s Hnl. rewrite is_valid_email_iff. split.
  - intros (body & nl & -> & [-> | ->] & Hbody).
    + now rewrite app_nil_r.
    + exfalso. apply Hnl. apply last_snoc.
  - intros Hs. exists s, []. rewrite app_nil_r. auto.
Qed.

Lemma is_valid_email_pattern_witness :
  is_valid_email (py "user@example.com") = true
  <-> code_pattern (py "user@example.com").
Proof.
  apply (proj1 is_valid_email_pattern).
  unfold ends_with_newline. vm_compute. discriminate.
Defined.

Lemma in_tail_set (c : N) : in_set tail_set c = tail_char c.
Proof.
  unfold in_set, tail_set, tail_char, ascii_isalpha, existsb, in_item.
  destruct (chr "a" <=? c), (c <=? chr "z"), (chr "A" <=? c), (c <=? chr "Z"),
    (chr "0" <=? c), (c <=? chr "9"), (c =? chr "-"), (c =? chr ".");
    reflexivity.
Qed.

(** ** The effects *)

Lemma extends_refl (st : state) : extends st st.
Proof. exists []. now rewrite app_nil_r. Qed.

Lemma extends_trans (st1 st2 st3 : state) :
  extends st1 st2 -> extends st2 st3 -> extends st1 st3.
Proof.
  intros [m1 H1] [m2 H2]. exists (m1 ++ m2).
  now rewrite H2, H1, app_assoc.
Qed.

Lemma growing_ret {T} (v : T) : growing (ret v).
Proof. intros st. apply extends_refl. Qed.

Lemma growing_raise {T} (e : exn) : growing (@raise T e).
Proof. intros st. apply extends_refl. Qed.

Lemma growing_bind {T U} (m : M T) (k : T -> M U) :
  growing m -> (forall v, growing (k v)) -> growing (bind m k).
Proof.
  intros Hm Hk st. unfold bind. specialize (Hm st).
  destruct (m st) as [[v|e|] st1]; simpl in *; try assumption.
  eapply extends_trans; [exact Hm | apply Hk].
Qed.

Lemma growing_try_except {T} (m : M T) (handles : exn -> bool) (h : M T) :
  growing m -> growing h -> growing (try_except m handles h).
Proof.
  intros Hm Hh st. unfold try_except. specialize (Hm st).
  destruct (m st) as [[v|e|] st1]; simpl in *; try assumption.
  destruct (handles e); simpl; [|assumption].
  eapply extends_trans; [exact Hm | apply Hh].
Qed.

Lemma growing_index {T} (l : list T) (i : nat) : growing (index l i).
Proof. unfold index. destruct (l !! i); [apply growing_ret | apply growing_raise]. Qed.

Lemma growing_from_option {T} (o : option T) : growing (from_option o).
Proof. destruct o; [apply growing_ret | apply growing_raise]. Qed.

Lemma growing_resolve (w : world) (domain : str) (rd : rdtype) :
  growing (resolve w domain rd).
Proof. intros st. now exists [Resolve domain rd]. Qed.

Lemma growing_smtp_new (w : world) (h : str) : growing (smtp_new w h).
Proof.
  intros st. exists [Connect h]. unfold smtp_new.
  destruct (await _ _ _); reflexivity.
Qed.

Lemma growing_docmd (w : world) (server : SMTP) (c : command) :
  growing (docmd w server c).
Proof. intros st. now exists [Command c]. Qed.

Lemma growing_quit (w : world) (server : SMTP) : growing (quit w server).
Proof.
  intros st. exists [Command QUIT]. unfold quit, docmd.
  destruct (await _ _ _); reflexivity.
Qed.

Create HintDb growing.
#[local] Hint Resolve growing_ret growing_raise growing_index
  growing_from_option growing_resolve growing_smtp_new growing_docmd
  growing_quit : growing.

Ltac growing :=
  repeat first
    [ solve [unfold helo, mail, rcpt; auto with growing]
    | apply growing_try_except
    | match goal with |- growing (let '(_, _) := ?r in _) => destruct r end
    | apply growing_bind; [|intros ?] ].

Lemma growing_has_mx_records (w : world) (domain : str) :
  growing (has_mx_records w domain).
Proof. unfold has_mx_records. growing. Qed.

Lemma growing_smtp_verify (w : world) (email : str) :
  growing (smtp_verify w email).
Proof. unfold smtp_verify. growing. Qed.

(** A handler for every exception leaves none to the caller. *)
Lemma try_except_all {T} (m : M T) (v : T) (st : state) (e : exn) :
  fst (try_except m (fun _ => true) (ret v) st) <> Raise e.
Proof.
  unfold try_except. destruct (m st) as [[x|e'|] st']; simpl; discriminate.
Qed.

(** ** The domain resolver *)

Lemma domain_exists_eval (w : world) (domain : str) (st : state) :
  domain_exists w domain st =
  (match dns w (log st) domain RdA with
   | Ok _ => Ret true
   | Fails NXDOMAIN => Ret false
   | Fails e => Raise e
   | Silent => Raise LifetimeTimeout
   end,
   State (log st ++ [Resolve domain RdA]) (sessions st)).
Proof.
  unfold domain_exists, try_except, bind, resolve, await, resolver_lifetime.
  destruct (dns w (log st) domain RdA) as [rs|e|]; try reflexivity.
  destruct e; reflexivity.
Qed.

Lemma has_mx_records_eval (w : world) (domain : str) (st : state) :
  has_mx_records w domain st =
  (match dns w (log st) domain RdMX with
   | Ok rs => Ret (0 <? length rs)%nat
   | Fails NoAnswer | Fails NXDOMAIN => Ret false
   | Fails e => Raise e
   | Silent => Raise LifetimeTimeout
   end,
   State (log st ++ [Resolve domain RdMX]) (sessions st)).
Proof.
  unfold has_mx_records, try_except, bind, resolve, await, resolver_lifetime.
  destruct (dns w (log st) domain RdMX) as [rs|e|]; try reflexivity.
  destruct e; reflexivity.
Qed.

(** ** The pipeline *)

Section PipelineFacts.

Variable unicode_isalpha : N -> bool.
Variable unicode_upper : N -> str.
Variable countries_get : str -> option str.

Let verify := verify_email unicode_isalpha unicode_upper countries_get.
Let country_of := get_country_by_domain unicode_isalpha unicode_upper countries_get.

Lemma verify_email_invalid (w : world) (email : str) (st : state) :
  is_valid_email email = false ->
  verify w email st =
  (Ret (Verification email false (py "Invalid Email Syntax") Unknown), st).
Proof. intros H. unfold verify, verify_email. now rewrite H. Qed.

(** The checks of an accepted address, in the order they are made. *)
Lemma verify_email_valid (w : world) (email domain : str) (st : state) :
  is_valid_email email = true ->
  get_domain email = Some domain ->
  verify w email st =
  match domain_exists w domain st with
  | (Ret true, st1) =>
      match has_mx_records w domain st1 with
      | (Ret true, st2) =>
          match smtp_verify w email st2 with
          | (Ret true, st3) =>
              (Ret (Verification email true (py "Verified")
                      (country_of domain)), st3)
          | (Ret false, st3) =>
              (Ret (Verification email false (py "Email Not Verified")
                      (country_of domain)), st3)
          | (Raise e, st3) => (Raise e, st3)
          | (Hang, st3) => (Hang, st3)
          end
      | (Ret false, st2) =>
          (Ret (Verification email false (py "No MX Records") Unknown), st2)
      | (Raise e, st2) => (Raise e, st2)
      | (Hang, st2) => (Hang, st2)
      end
  | (Ret false, st1) =>
      (Ret (Verification email false (py "Domain Does Not Exist") Unknown),
       st1)
  | (Raise e, st1) => (Raise e, st1)
  | (Hang, st1) => (Hang, st1)
  end.
Proof.
  intros Hvalid Hdom. unfold verify, verify_email.
  rewrite Hvalid, Hdom. cbn [negb from_option]. unfold bind at 1. cbn [ret].
  unfold bind at 1.
  destruct (domain_exists w domain st) as [[[|]|e|] st1]; try reflexivity.
  cbn [negb]. unfold bind at 1.
  destruct (has_mx_records w domain st1) as [[[|]|e|] st2]; try reflexivity.
  cbn [negb]. unfold bind at 1.
  destruct (smtp_verify w email st2) as [[[|]|e|] st3]; reflexivity.
Qed.

End PipelineFacts.




(** ** The mailbox prober *)

Lemma smtp_verify_never_raises (w : world) (email domain : str) (st : state)
    (e : exn) :
  get_domain email = Some domain -> fst (smtp_verify w email st) <> Raise e.
Proof.
  intros Hdom. unfold smtp_verify. rewrite Hdom.
  cbn [from_option]. unfold bind at 1. cbn [ret].
  apply try_except_all.
Qed.

Ltac run_probe :=
  unfold smtp_verify;
  repeat first
    [ progress unfold try_except, bind, from_option, ret, raise, resolve,
        index, smtp_new, helo, mail, rcpt, quit, docmd, await,
        global_default_timeout
    | progress cbn [log sessions timeout lookup list_lookup fst snd]
    | match goal with
      | H : ?x = _ |- context [?x] => rewrite H
      end ].

Section Probe.

Variables (w : world) (email domain mx : str) (others : list str).
Variable st : state.
Hypothesis Hdomain : get_domain email = Some domain.
Hypothesis Hmx : dns w (log st) domain RdMX = Ok (mx :: others).

Let log1 := log st ++ [Resolve domain RdMX].
Let log2 := log1 ++ [Connect mx].
Let log3 := log2 ++ [Command HELO].
Let log4 := log3 ++ [Command (MAIL (py "test@example.com"))].
Let log5 := log4 ++ [Command (RCPT email)].
Let log6 := log5 ++ [Command QUIT].



Lemma smtp_verify_helo_fails (e : exn) :
  smtp_open w log1 mx = Ok tt ->
  smtp_reply w log2 HELO = Fails e ->
  smtp_verify w email st = (Ret false, State log3 (S (sessions st))).
Proof. subst log1 log2 log3. intros Hopen Hhelo. run_probe. reflexivity. Qed.

(** The whole dialogue: the answer is the comparison of the RCPT code
    with 250, and the session is quit. *)
Lemma smtp_verify_dialogue (r1 r2 r4 : Z * str) (code : Z) (message : str) :
  smtp_open w log1 mx = Ok tt ->
  smtp_reply w log2 HELO = Ok r1 ->
  smtp_reply w log3 (MAIL (py "test@example.com")) = Ok r2 ->
  smtp_reply w log4 (RCPT email) = Ok (code, message) ->
  smtp_reply w log5 QUIT = Ok r4 ->
  smtp_verify w email st = (Ret (code =? 250)%Z, State log6 (sessions st)).
Proof.
  subst log1 log2 log3 log4 log5 log6. intros Hopen Hhelo Hmail Hrcpt Hquit.
  run_probe. reflexivity.
Qed.

End Probe.

(** ** What the resolver's errors do *)

Lemma domain_exists_false_iff (w : world) (domain : str) (st : state) :
  fst (domain_exists w domain st) = Ret false <->
  dns w (log st) domain RdA = Fails NXDOMAIN.
Proof.
  rewrite domain_exists_eval. cbn [fst].
  destruct (dns w (log st) domain RdA) as [rs|e|].
  - split; discriminate.
  - destruct e; split; try discriminate; reflexivity.
  - split; discriminate.
Qed.

Lemma domain_exists_answer (w : world) (domain : str) (st : state)
    (records : list str) :
  dns w (log st) domain RdA = Ok records ->
  fst (domain_exists w domain st) = Ret true.
Proof. intros H. rewrite domain_exists_eval, H. reflexivity. Qed.

(** C4 (code defect): for a resolver outcome that is an error other than
    NXDOMAIN (no answer, no name servers, ...), [domain_exists] returns no
    boolean: the exception leaves the function. *)
Theorem domain_exists_propagates (w : world) (domain : str) (st : state)
    (e : exn) :
  dns w (log st) domain RdA = Fails e ->
  e <> NXDOMAIN ->
  fst (domain_exists w domain st) = Raise e.
Proof.
  intros H Hne. rewrite domain_exists_eval, H. cbn [fst].
  destruct e; congruence.
Qed.

Lemma domain_exists_propagates_witness :
  fst (domain_exists mx_only (py "example.com") st0) = Raise NoAnswer.
Proof.
  apply domain_exists_propagates.
  - reflexivity.
  - discriminate.
Defined.

(** C1 (code defect): for an address of valid syntax, an error of the A
    lookup other than NXDOMAIN, and likewise a lookup that times out, is
    raised to the caller of [verify_email]: no result is returned. *)
Theorem verify_email_raises_resolver_errors (unicode_isalpha : N -> bool)
    (unicode_upper : N -> str) (countries_get : str -> option str)
    (w : world) (email domain : str) (st : state) :
  is_valid_email email = true ->
  get_domain email = Some domain ->
  (forall e, dns w (log st) domain RdA = Fails e -> e <> NXDOMAIN ->
     fst (verify_email unicode_isalpha unicode_upper countries_get w email st)
     = Raise e)
  /\ (dns w (log st) domain RdA = Silent ->
      fst (verify_email unicode_isalpha unicode_upper countries_get w email st)
      = Raise LifetimeTimeout).
Proof.
  intros Hvalid Hdom.
  rewrite (verify_email_valid _ _ _ _ _ _ _ Hvalid Hdom), domain_exists_eval.
  split.
  - intros e -> Hne. destruct e; try reflexivity. congruence.
  - intros ->. reflexivity.
Qed.

Lemma verify_email_raises_resolver_errors_witness :
  fst (verify_email ascii_only_isalpha ascii_only_upper sample_countries
         mx_only (py "user@example.com") st0) = Raise NoAnswer
  /\ fst (verify_email ascii_only_isalpha ascii_only_upper sample_countries
         dns_down (py "user@example.com") st0) = Raise LifetimeTimeout.
Proof.
  split.
  - apply (proj1 (verify_email_raises_resolver_errors ascii_only_isalpha
                    ascii_only_upper sample_countries mx_only
                    (py "user@example.com") (py "example.com") st0
                    eq_refl eq_refl)).
    + reflexivity.
    + discriminate.
  - apply (proj2 (verify_email_raises_resolver_errors ascii_only_isalpha
                    ascii_only_upper sample_countries dns_down
                    (py "user@example.com") (py "example.com") st0
                    eq_refl eq_refl)).
    reflexivity.
Defined.

(** ** What a failed probe reports *)

(** C5, as the claim states it, fails: an exchanger that rejects the
    recipient with 550 and an exchanger that refuses the connection lead to
    the same answer of the prober and to the same result of the pipeline,
    status included. *)
Lemma probe_outcomes_conflated :
  fst (smtp_verify rejecting (py "user@example.de") st0) =
  fst (smtp_verify refusing (py "user@example.de") st0)
  /\ fst (verify_email ascii_only_isalpha ascii_only_upper sample_countries
            rejecting (py "user@example.de") st0) =
     Ret (Verification (py "user@example.de") false (py "Email Not Verified")
            (py "Germany"))
  /\ fst (verify_email ascii_only_isalpha ascii_only_upper sample_countries
            refusing (py "user@example.de") st0) =
     Ret (Verification (py "user@example.de") false (py "Email Not Verified")
            (py "Germany")).
Proof. repeat split; vm_compute; reflexivity. Qed.

(** ** An exchanger that stays silent, and one that breaks off *)




(** On the path where every command is answered the session is quit,
    whatever the RCPT code. *)
Example probe_quits_after_rcpt :
  smtp_verify rejecting (py "user@example.com") st0 =
  (Ret false,
   State [Resolve (py "example.com") RdMX; Connect (py "mx.example.com.");
          Command HELO; Command (MAIL (py "test@example.com"));
          Command (RCPT (py "user@example.com")); Command QUIT] 0).
Proof. vm_compute. reflexivity. Qed.

(** ** Accepted addresses go on to the network checks *)

Lemma forallb_tail_set (t : str) :
  forallb (in_set tail_set) t = forallb tail_char t.
Proof.
  induction t as [|c t IH]; cbn [forallb]; [reflexivity|].
  now rewrite in_tail_set, IH.
Qed.

Lemma verify_email_first_call (unicode_isalpha : N -> bool)
    (unicode_upper : N -> str) (countries_get : str -> option str)
    (w : world) (email domain : str) (st : state) :
  is_valid_email email = true ->
  get_domain email = Some domain ->
  exists more,
    log (snd (verify_email unicode_isalpha unicode_upper countries_get
                w email st))
    = log st ++ Resolve domain RdA :: more.
Proof.
  intros Hvalid Hdom.
  rewrite (verify_email_valid _ _ _ _ _ _ _ Hvalid Hdom).
  destruct (domain_exists w domain st) as [r st1] eqn:Hex.
  rewrite domain_exists_eval in Hex. injection Hex as _ Hst1.
  assert (Hlog : forall st', extends st1 st' ->
            exists more, log st' = log st ++ Resolve domain RdA :: more).
  { intros st' [more Hmore]. exists more.
    rewrite Hmore, <- Hst1. cbn [log]. now rewrite <- app_assoc. }
  destruct r as [[|]|e|]; cbn [snd]; try (apply Hlog, extends_refl).
  pose proof (growing_has_mx_records w domain st1) as Hmx.
  destruct (has_mx_records w domain st1) as [r st2]. cbn [snd] in Hmx.
  destruct r as [[|]|e|]; cbn [snd]; try (apply Hlog, Hmx).
  pose proof (growing_smtp_verify w email st2) as Hprobe.
  destruct (smtp_verify w email st2) as [r st3]. cbn [snd] in Hprobe.
  assert (extends st1 st3) by (eapply extends_trans; eassumption).
  destruct r as [[|]|e|]; cbn [snd]; now apply Hlog.
Qed.

(** C10 (confirmed): after the first dot of the domain any nonempty mix of
    letters, digits, hyphens and dots is accepted; so [user@example..com],
    [user@example.com.] and [user@a.-] are accepted, and an accepted address
    goes on to the network checks: the pipeline's first call is the A lookup
    of its domain. *)
Theorem is_valid_email_free_tail :
  (forall l d t : str,
      run_of local_set l -> run_of label_set d ->
      t <> [] -> forallb tail_char t = true ->
      is_valid_email (l ++ chr "@" :: d ++ chr "." :: t) = true)
  /\ is_valid_email (py "user@example..com") = true
  /\ is_valid_email (py "user@example.com.") = true
  /\ is_valid_email (py "user@a.-") = true
  /\ (forall (unicode_isalpha : N -> bool) (unicode_upper : N -> str)
        (countries_get : str -> option str) (w : world) (email : str)
        (st : state),
        is_valid_email email = true ->
        exists domain more,
          get_domain email = Some domain
          /\ log (snd (verify_email unicode_isalpha unicode_upper
                         countries_get w email st))
             = log st ++ Resolve domain RdA :: more).
Proof.
  split; [|split; [|split; [|split]]]; try reflexivity.
  - intros l d t Hl Hd Hne Ht. apply is_valid_email_iff.
    exists (l ++ chr "@" :: d ++ chr "." :: t), []. rewrite app_nil_r.
    split; [reflexivity|]. split; [now left|].
    exists l, d, t. repeat split; try apply Hl; try apply Hd; try assumption.
    now rewrite forallb_tail_set.
  - intros ui uu tbl w email st Hvalid.
    destruct (valid_get_domain _ Hvalid) as (l & domain & _ & Hdom).
    destruct (verify_email_first_call ui uu tbl w _ _ st Hvalid Hdom)
      as [more Hmore].
    now exists domain, more.
Qed.

Lemma is_valid_email_free_tail_witness :
  is_valid_email (py "user" ++ chr "@" :: py "a" ++ chr "." :: py "-.-") = true
  /\ exists domain more,
       get_domain (py "user@example..com") = Some domain
       /\ log (snd (verify_email ascii_only_isalpha ascii_only_upper
                      sample_countries friendly (py "user@example..com") st0))
          = log st0 ++ Resolve domain RdA :: more.
Proof.
  split.
  - apply (proj1 is_valid_email_free_tail).
    + split; [discriminate | reflexivity].
    + split; [discriminate | reflexivity].
    + discriminate.
    + reflexivity.
  - apply (proj2 (proj2 (proj2 (proj2 is_valid_email_free_tail)))).
    reflexivity.
Defined.

(** ** The country inferrer *)

Example split_labels :
  split (chr ".") (py "mail.co.uk") = [py "mail"; py "co"; py "uk"].
Proof. reflexivity. Qed.

Example split_empty_labels : split (chr ".") (py "a..b.") = [py "a"; []; py "b"; []].
Proof. reflexivity. Qed.

Example country_of_co_uk :
  get_country_by_domain ascii_only_isalpha ascii_only_upper sample_countries
    (py "mail.co.uk") = py "Unknown".
Proof. reflexivity. Qed.

(** C6, as the claim states it, fails: for the single label [de] the rule
    of the claim (the last label alone decides) gives Germany, the code
    gives Unknown. *)
Lemma single_label_is_unknown :
  get_country_by_domain ascii_only_isalpha ascii_only_upper sample_countries
    (py "de") = py "Unknown"
  /\ spec_inferCountry ascii_only_isalpha ascii_only_upper sample_countries
       (py "de") = py "Germany"
  /\ get_country_by_domain ascii_only_isalpha ascii_only_upper sample_countries
       (py "de")
     <> spec_inferCountry ascii_only_isalpha ascii_only_upper sample_countries
          (py "de").
Proof. repeat split. vm_compute. discriminate. Qed.

(** C6 (amended): the domain is split on dots.  When it has a dot and the
    label after its last dot consists of exactly two alphabetic characters,
    that label is uppercased and looked up in the country table, and the
    answer is the country's name if there is one and "Unknown" otherwise;
    when that label is anything else the answer is "Unknown"; a domain
    without a dot yields "Unknown", a single two-letter label included.
    With DE standing for Germany in the table, [example.de] gives "Germany";
    [example.com] gives "Unknown". *)
Theorem get_country_by_domain_last_label (unicode_isalpha : N -> bool)
    (unicode_upper : N -> str) (countries_get : str -> option str) :
  (forall pre lbl : str,
      chr "." ∉ lbl ->
      get_country_by_domain unicode_isalpha unicode_upper countries_get
        (pre ++ chr "." :: lbl)
      = if isalpha unicode_isalpha lbl && (length lbl =? 2)%nat
        then match countries_get (upper unicode_upper lbl) with
             | Some name => name
             | None => py "Unknown"
             end
        else py "Unknown")
  /\ (forall domain : str,
        chr "." ∉ domain ->
        get_country_by_domain unicode_isalpha unicode_upper countries_get domain
        = py "Unknown")
  /\ (countries_get (py "DE") = Some (py "Germany") ->
      get_country_by_domain unicode_isalpha unicode_upper countries_get
        (py "example.de") = py "Germany")
  /\ get_country_by_domain unicode_isalpha unicode_upper countries_get
       (py "example.com") = py "Unknown".
Proof.
  split; [|split; [|split]].
  - intros pre lbl Hlbl. unfold get_country_by_domain, index_last.
    destruct (split_last_label (chr ".") pre lbl Hlbl) as (parts & Hne & ->).
    rewrite last_snoc, length_app.
    destruct parts as [|p ps]; [congruence|].
    cbn [length Nat.add Nat.ltb Nat.leb]. rewrite Nat.add_1_r. reflexivity.
  - intros domain Hdom. unfold get_country_by_domain.
    now rewrite (split_no_sep _ _ Hdom).
  - intros Htable. vm_compute in Htable. vm_compute. now rewrite Htable.
  - reflexivity.
Qed.

Lemma get_country_by_domain_last_label_witness :
  get_country_by_domain ascii_only_isalpha ascii_only_upper sample_countries
    (py "shop.example" ++ chr "." :: py "fr") = py "France"
  /\ get_country_by_domain ascii_only_isalpha ascii_only_upper sample_countries
       (py "localhost") = py "Unknown"
  /\ get_country_by_domain ascii_only_isalpha ascii_only_upper sample_countries
       (py "example.de") = py "Germany".
Proof.
  split; [|split].
  - rewrite (proj1 (get_country_by_domain_last_label ascii_only_isalpha
                      ascii_only_upper sample_countries)).
    + reflexivity.
    + apply (run_of_avoids label_set); reflexivity.
  - apply (proj1 (proj2 (get_country_by_domain_last_label ascii_only_isalpha
                           ascii_only_upper sample_countries))).
    apply (run_of_avoids label_set); reflexivity.
  - apply (proj1 (proj2 (proj2 (get_country_by_domain_last_label
                                  ascii_only_isalpha ascii_only_upper
                                  sample_countries)))).
    reflexivity.
Defined.

(** ** The bulk runner *)

Section Pool.

Implicit Types (tasks : list (result verification)) (schedule : list nat).

Lemma length_run_workers tasks schedule :
  length (run_workers tasks schedule) = length tasks.
Proof.
  unfold run_workers.
  induction schedule as [|j schedule IH] using rev_ind; simpl.
  - apply length_replicate.
  - rewrite foldl_snoc. unfold run_task at 1.
    destruct (tasks !! j); [now rewrite length_insert | assumption].
Qed.

(** The future of a task holds its outcome as soon as the task is in the
    schedule, whatever the order. *)
Lemma run_workers_lookup tasks schedule (i : nat) (outcome : result verification) :
  tasks !! i = Some outcome ->
  run_workers tasks schedule !! i
  = Some (if decide (i ∈ schedule) then Some outcome else None).
Proof.
  intros Hi.
  assert (Hlt : (i < length tasks)%nat) by (eapply lookup_lt_Some; eassumption).
  induction schedule as [|j schedule IH] using rev_ind.
  - unfold run_workers. simpl. rewrite lookup_replicate_2 by assumption.
    destruct (decide (i ∈ [])) as [Hin|_]; [|reflexivity].
    now apply not_elem_of_nil in Hin.
  - change (run_workers tasks (schedule ++ [j]))
      with (foldl (run_task tasks) (replicate (length tasks) None)
              (schedule ++ [j])).
    rewrite foldl_snoc.
    change (foldl (run_task tasks) (replicate (length tasks) None) schedule)
      with (run_workers tasks schedule).
    unfold run_task at 1. destruct (decide (i = j)) as [<-|Hne].
    + rewrite Hi, list_lookup_insert_eq
        by now rewrite length_run_workers.
      destruct (decide (i ∈ schedule ++ [i])) as [_|Hout]; [reflexivity|].
      exfalso. apply Hout. apply elem_of_app. right. now left.
    + assert (Hsame : run_workers tasks schedule !! i
                      = Some (if decide (i ∈ schedule ++ [j])
                              then Some outcome else None)).
      { rewrite IH.
        destruct (decide (i ∈ schedule)) as [Hin|Hout],
                 (decide (i ∈ schedule ++ [j])) as [Hin'|Hout'];
          try reflexivity.
        - exfalso. apply Hout'. apply elem_of_app. now left.
        - exfalso. apply elem_of_app in Hin' as [Hin'|Hin']; [auto|].
          apply list_elem_of_singleton in Hin'. auto. }
      destruct (tasks !! j); [|assumption].
      now rewrite list_lookup_insert_ne by auto.
Qed.

Lemma run_workers_fair tasks schedule :
  fair schedule (length tasks) ->
  run_workers tasks schedule = Some <$> tasks.
Proof.
  intros Hfair. apply list_eq. intros i.
  rewrite list_lookup_fmap.
  destruct (tasks !! i) as [outcome|] eqn:Hi.
  - rewrite (run_workers_lookup _ _ _ _ Hi).
    destruct (decide (i ∈ schedule)) as [_|Hout]; [reflexivity|].
    exfalso. apply Hout, Hfair. eapply lookup_lt_Some. eassumption.
  - apply lookup_ge_None. rewrite length_run_workers.
    now apply lookup_ge_None.
Qed.

Lemma gather_returned (vs : list verification) :
  gather (Some <$> (Ret <$> vs)) = Ret vs.
Proof.
  induction vs as [|v vs IH]; [reflexivity|].
  cbn [fmap list_fmap gather]. cbn [fmap] in IH. now rewrite IH.
Qed.

Lemma no_return_is_blocked (vs : list verification) :
  existsb blocked (Some <$> (Ret <$> vs)) = false.
Proof. induction vs as [|v vs IH]; [reflexivity | exact IH]. Qed.

End Pool.

(** When every pipeline run returns, the results come back one per address
    and in the order of the addresses, for every fair schedule. *)
Lemma verify_bulk_emails_in_order (unicode_isalpha : N -> bool)
    (unicode_upper : N -> str) (countries_get : str -> option str)
    (worlds : nat -> world) (emails : list str) (schedule : list nat)
    (vs : list verification) :
  fair schedule (length emails) ->
  imap (task unicode_isalpha unicode_upper countries_get worlds) emails
    = Ret <$> vs ->
  verify_bulk_emails unicode_isalpha unicode_upper countries_get
    worlds emails schedule = Ret vs
  /\ length vs = length emails
  /\ forall i email,
       emails !! i = Some email ->
       Ret <$> vs !! i
       = Some (task unicode_isalpha unicode_upper countries_get worlds i email).
Proof.
  intros Hfair Htasks. split; [|split].
  - unfold verify_bulk_emails.
    rewrite run_workers_fair by now rewrite length_imap.
    now rewrite Htasks, gather_returned.
  - apply (f_equal length) in Htasks.
    now rewrite length_imap, length_fmap in Htasks.
  - intros i email Hi.
    rewrite <- list_lookup_fmap, <- Htasks, list_lookup_imap, Hi.
    reflexivity.
Qed.

Example verify_bulk_emails_empty :
  verify_bulk_emails ascii_only_isalpha ascii_only_upper sample_countries
    (fun _ => friendly) [] [] = Ret [].
Proof. reflexivity. Qed.

Example verify_bulk_emails_out_of_order :
  verify_bulk_emails ascii_only_isalpha ascii_only_upper sample_countries
    (fun i => match i with 2%nat => absent | _ => friendly end)
    [py "valid@example.de"; py "bad-syntax"; py "user@nonexistent.invalid"]
    [2; 0; 1]%nat
  = Ret [Verification (py "valid@example.de") true (py "Verified") (py "Germany");
         Verification (py "bad-syntax") false (py "Invalid Email Syntax")
           (py "Unknown");
         Verification (py "user@nonexistent.invalid") false
           (py "Domain Does Not Exist") (py "Unknown")].
Proof. vm_compute. reflexivity. Qed.

(** C2 (code defect): when the pipeline run of the single address of a
    batch raises, the bulk runner raises the same exception and returns no
    sequence of results, whatever the schedule that lets the task finish. *)
Theorem verify_bulk_emails_reraises (unicode_isalpha : N -> bool)
    (unicode_upper : N -> str) (countries_get : str -> option str)
    (worlds : nat -> world) (email : str) (schedule : list nat) (e : exn) :
  0%nat ∈ schedule ->
  task unicode_isalpha unicode_upper countries_get worlds 0 email = Raise e ->
  verify_bulk_emails unicode_isalpha unicode_upper countries_get
    worlds [email] schedule = Raise e.
Proof.
  intros Hin Htask. unfold verify_bulk_emails.
  rewrite run_workers_fair.
  - cbn [imap fmap list_fmap]. rewrite Htask. reflexivity.
  - intros i Hi. cbn [imap length] in Hi.
    assert (i = 0%nat) as -> by lia. exact Hin.
Qed.

Lemma verify_bulk_emails_reraises_witness :
  verify_bulk_emails ascii_only_isalpha ascii_only_upper sample_countries
    (fun _ => mx_only) [py "user@example.com"] [0%nat] = Raise NoAnswer.
Proof.
  apply verify_bulk_emails_reraises.
  - now left.
  - reflexivity.
Defined.

(** * Further properties of the program *)

(** ** [get_domain] *)

Lemma split_cons (sep : N) (s : str) :
  exists first others, split sep s = first :: others.
Proof.
  induction s as [|c s (first & others & IH)]; simpl; [now eexists _, _|].
  destruct (c =? sep); [now eexists _, _|].
  rewrite IH. now eexists _, _.
Qed.

(** [get_domain] raises IndexError exactly when the string holds no [@]. *)
Theorem get_domain_none_iff (email : str) :
  get_domain email = None <-> chr "@" ∉ email.
Proof.
  unfold get_domain. split.
  - intros Hnone Hin.
    apply list_elem_of_split_l in Hin as (l & r & -> & Hl).
    rewrite (split_first _ _ _ Hl) in Hnone.
    destruct (split_cons (chr "@") r) as (first & others & Hr).
    rewrite Hr in Hnone. discriminate.
  - intros Hout. now rewrite (split_no_sep _ _ Hout).
Qed.

Lemma get_domain_segment (l d rest : str) :
  chr "@" ∉ l ->
  chr "@" ∉ d ->
  rest = [] \/ head rest = Some (chr "@") ->
  get_domain (l ++ chr "@" :: d ++ rest) = Some d.
Proof.
  intros Hl Hd Hrest. unfold get_domain. rewrite (split_first _ _ _ Hl).
  destruct Hrest as [-> | Hhead].
  - rewrite app_nil_r, (split_no_sep _ _ Hd). reflexivity.
  - apply head_Some in Hhead as [rest' ->].
    now rewrite (split_first _ _ _ Hd).
Qed.

(** [get_domain] gives what stands between the first [@] and the next one,
    or the end of the string: a second [@] cuts the domain short. *)
Theorem get_domain_first_segment (l d rest : str) :
  chr "@" ∉ l ->
  chr "@" ∉ d ->
  rest = [] \/ head rest = Some (chr "@") ->
  get_domain (l ++ chr "@" :: d ++ rest) = Some d.
Proof. apply get_domain_segment. Qed.

Lemma get_domain_first_segment_witness :
  get_domain (py "a" ++ chr "@" :: py "b.c" ++ py "@d.e") = Some (py "b.c").
Proof.
  apply get_domain_first_segment.
  - apply (run_of_avoids label_set); reflexivity.
  - apply (run_of_avoids tail_set); reflexivity.
  - right. reflexivity.
Defined.

(** An accepted address has a nonempty local part, exactly one [@], and a
    domain, the one [get_domain] returns, with a dot in it. *)
Theorem accepted_address_parts (email : str) :
  is_valid_email email = true ->
  exists l domain,
    email = l ++ chr "@" :: domain
    /\ get_domain email = Some domain
    /\ l <> [] /\ (chr "@" ∉ l) /\ (chr "@" ∉ domain) /\ (chr "." ∈ domain).
Proof.
  intros Hvalid.
  destruct (proj1 (is_valid_email_iff email) Hvalid)
    as (body & nl & -> & Hnl & l & d & t & -> & [Hne Hl] & [_ Hd] & [_ Ht]).
  assert (Hrest : chr "@" ∉ (d ++ chr "." :: t) ++ nl).
  { rewrite !not_elem_of_app, not_elem_of_cons. repeat split.
    - eapply run_of_avoids; [|exact Hd]; reflexivity.
    - discriminate.
    - eapply run_of_avoids; [|exact Ht]; reflexivity.
    - destruct Hnl as [-> | ->].
      + apply not_elem_of_nil.
      + rewrite list_elem_of_singleton. discriminate. }
  assert (Hlocal : chr "@" ∉ l)
    by (eapply run_of_avoids; [|exact Hl]; reflexivity).
  exists l, ((d ++ chr "." :: t) ++ nl).
  assert (Heq : (l ++ chr "@" :: d ++ chr "." :: t) ++ nl
                = l ++ chr "@" :: ((d ++ chr "." :: t) ++ nl))
    by now rewrite <- app_assoc.
  rewrite Heq. repeat split; try assumption.
  - pose proof (get_domain_segment l _ [] Hlocal Hrest
                  (or_introl eq_refl)) as Hget.
    now rewrite app_nil_r in Hget.
  - rewrite !elem_of_app, elem_of_cons. left. right. now left.
Qed.

Lemma accepted_address_parts_witness :
  exists l domain,
    py "user@example.com" = l ++ chr "@" :: domain
    /\ get_domain (py "user@example.com") = Some domain
    /\ l <> [] /\ (chr "@" ∉ l) /\ (chr "@" ∉ domain) /\ (chr "." ∈ domain).
Proof. apply accepted_address_parts. reflexivity. Defined.

(** ** [has_mx_records] *)

(** [has_mx_records] is true exactly for an answer with a record in it,
    false exactly for an empty answer, NoAnswer and NXDOMAIN, and hands on
    every other error of the resolver. *)
Theorem has_mx_records_outcome (w : world) (domain : str) (st : state) :
  (fst (has_mx_records w domain st) = Ret true <->
     exists r rs, dns w (log st) domain RdMX = Ok (r :: rs))
  /\ (fst (has_mx_records w domain st) = Ret false <->
        dns w (log st) domain RdMX = Ok []
        \/ dns w (log st) domain RdMX = Fails NoAnswer
        \/ dns w (log st) domain RdMX = Fails NXDOMAIN)
  /\ (forall e,
        fst (has_mx_records w domain st) = Raise e <->
        (dns w (log st) domain RdMX = Fails e /\ e <> NoAnswer /\ e <> NXDOMAIN)
        \/ (dns w (log st) domain RdMX = Silent /\ e = LifetimeTimeout)).
Proof.
  rewrite has_mx_records_eval. cbn [fst].
  destruct (dns w (log st) domain RdMX) as [[|r rs]|e|]; cbn [length Nat.ltb Nat.leb].
  - split; [|split; [|intros e]]; split;
      try discriminate; try (intros (? & ? & ?); discriminate); auto;
      intros [[? _]|[? _]]; discriminate.
  - split; [|split; [|intros e]]; split;
      try discriminate; try (intros [?|[?|?]]; discriminate); eauto;
      intros [[? _]|[? _]]; discriminate.
  - split; [|split; [|intros e']].
    + split; [destruct e; discriminate | intros (? & ? & ?); discriminate].
    + split.
      * destruct e; try discriminate; auto.
      * intros [?|[[= ->]|[= ->]]]; [discriminate|reflexivity|reflexivity].
    + split.
      * destruct e; try discriminate; intros [= <-]; left;
          repeat split; discriminate.
      * intros [([= ->] & Hna & Hnx)|[? _]]; [|discriminate].
        destruct e'; congruence.
  - split; [|split; [|intros e]]; split;
      try discriminate; try (intros (? & ? & ?); discriminate);
      try (intros [?|[?|?]]; discriminate).
    + intros [= <-]. now right.
    + intros [[? _]|[_ ->]]; [discriminate|reflexivity].
Qed.

(** ** [smtp_verify], call by call *)

Ltac probe_cases :=
  repeat first
    [ progress unfold try_except, bind, from_option, ret, raise, resolve,
        index, smtp_new, helo, mail, rcpt, quit, docmd, await,
        global_default_timeout, resolver_lifetime
    | progress cbn [log sessions timeout lookup list_lookup fst snd Init.Nat.pred]
    | match goal with
      | |- context [match dns ?w ?l ?d ?rd with _ => _ end] =>
          destruct (dns w l d rd) as [[|? ?]|?|]
      | |- context [match smtp_open ?w ?l ?h with _ => _ end] =>
          destruct (smtp_open w l h) as [?|?|]
      | |- context [match smtp_reply ?w ?l ?c with _ => _ end] =>
          destruct (smtp_reply w l c) as [[? ?]|?|]
      end ].

Lemma smtp_verify_eval (w : world) (email : str) (st : state) :
  smtp_verify w email st =
  match get_domain email with
  | None => (Raise IndexError, st)
  | Some domain =>
    let log1 := log st ++ [Resolve domain RdMX] in
    match dns w (log st) domain RdMX with
    | Ok [] | Fails _ | Silent => (Ret false, State log1 (sessions st))
    | Ok (mx :: _) =>
      let log2 := log1 ++ [Connect mx] in
      match smtp_open w log1 mx with
      | Fails _ => (Ret false, State log2 (sessions st))
      | Silent => (Hang, State log2 (sessions st))
      | Ok _ =>
        let log3 := log2 ++ [Command HELO] in
        match smtp_reply w log2 HELO with
        | Fails _ => (Ret false, State log3 (S (sessions st)))
        | Silent => (Hang, State log3 (S (sessions st)))
        | Ok _ =>
          let log4 := log3 ++ [Command (MAIL (py "test@example.com"))] in
          match smtp_reply w log3 (MAIL (py "test@example.com")) with
          | Fails _ => (Ret false, State log4 (S (sessions st)))
          | Silent => (Hang, State log4 (S (sessions st)))
          | Ok _ =>
            let log5 := log4 ++ [Command (RCPT email)] in
            match smtp_reply w log4 (RCPT email) with
            | Fails _ => (Ret false, State log5 (S (sessions st)))
            | Silent => (Hang, State log5 (S (sessions st)))
            | Ok (code, _) =>
              let log6 := log5 ++ [Command QUIT] in
              match smtp_reply w log5 QUIT with
              | Fails _ => (Ret false, State log6 (S (sessions st)))
              | Silent => (Hang, State log6 (S (sessions st)))
              | Ok _ => (Ret (code =? 250)%Z, State log6 (sessions st))
              end
            end
          end
        end
      end
    end
  end.
Proof.
  unfold smtp_verify. destruct (get_domain email) as [domain|]; [|reflexivity].
  cbv zeta. probe_cases; reflexivity.
Qed.

Ltac probe_inv :=
  rewrite smtp_verify_eval in *; cbv zeta in *;
  repeat match goal with
    | |- context [match get_domain ?e with _ => _ end] =>
        destruct (get_domain e) as [?|] eqn:?
    | |- context [match dns ?w ?l ?d ?rd with _ => _ end] =>
        destruct (dns w l d rd) as [[|? ?]|?|] eqn:?
    | |- context [match smtp_open ?w ?l ?h with _ => _ end] =>
        destruct (smtp_open w l h) as [[]|?|] eqn:?
    | |- context [match smtp_reply ?w ?l ?c with _ => _ end] =>
        destruct (smtp_reply w l c) as [[? ?]|?|] eqn:?
    end.

Ltac flat_logs :=
  repeat rewrite <- app_assoc in *; cbn [app] in *.

(** Without an [@] in the address the prober raises IndexError, before any
    call to the network: [get_domain] stands outside its [try]. *)
Theorem smtp_verify_without_at (w : world) (email : str) (st : state) :
  chr "@" ∉ email ->
  smtp_verify w email st = (Raise IndexError, st).
Proof.
  intros Hout. rewrite smtp_verify_eval.
  unfold get_domain. now rewrite (split_no_sep _ _ Hout).
Qed.

Lemma smtp_verify_without_at_witness :
  smtp_verify friendly (py "not-an-email") st0 = (Raise IndexError, st0).
Proof.
  apply smtp_verify_without_at.
  apply (run_of_avoids label_set); reflexivity.
Defined.

(** The prober answers True only after the whole dialogue: the MX lookup
    gave a first record, and the exchanger answered RCPT with 250 and
    answered QUIT; the session is then closed. *)
Theorem smtp_verify_true_inv (w : world) (email : str) (st : state) :
  fst (smtp_verify w email st) = Ret true ->
  exists domain mx others message,
    get_domain email = Some domain
    /\ dns w (log st) domain RdMX = Ok (mx :: others)
    /\ smtp_reply w
         (log st ++ [Resolve domain RdMX; Connect mx; Command HELO;
                     Command (MAIL (py "test@example.com"))])
         (RCPT email) = Ok (250%Z, message)
    /\ snd (smtp_verify w email st)
       = State (log st ++ dialogue domain mx email) (sessions st).
Proof.
  probe_inv; cbn [fst snd]; try discriminate.
  intros [= Hcode]. apply Z.eqb_eq in Hcode. subst.
  flat_logs. eexists _, _, _, _. repeat split; eauto.
Qed.

Lemma smtp_verify_true_inv_witness :
  exists domain mx others message,
    get_domain (py "user@example.com") = Some domain
    /\ dns friendly (log st0) domain RdMX = Ok (mx :: others)
    /\ smtp_reply friendly
         (log st0 ++ [Resolve domain RdMX; Connect mx; Command HELO;
                      Command (MAIL (py "test@example.com"))])
         (RCPT (py "user@example.com")) = Ok (250%Z, message)
    /\ snd (smtp_verify friendly (py "user@example.com") st0)
       = State (log st0 ++ dialogue domain mx (py "user@example.com"))
           (sessions st0).
Proof. apply smtp_verify_true_inv. reflexivity. Defined.



(** When its MX lookup brings no record (an empty answer, an error, no
    reply), the prober answers False without opening a connection. *)
Theorem smtp_verify_without_exchanger (w : world) (email domain : str)
    (st : state) :
  get_domain email = Some domain ->
  dns w (log st) domain RdMX = Ok []
  \/ (exists e, dns w (log st) domain RdMX = Fails e)
  \/ dns w (log st) domain RdMX = Silent ->
  smtp_verify w email st
  = (Ret false, State (log st ++ [Resolve domain RdMX]) (sessions st)).
Proof.
  intros Hdom Hmx. rewrite smtp_verify_eval, Hdom. cbv zeta.
  destruct Hmx as [-> | [[e ->] | ->]]; reflexivity.
Qed.

Lemma smtp_verify_without_exchanger_witness :
  smtp_verify no_mx (py "user@example.com") st0
  = (Ret false, State (log st0 ++ [Resolve (py "example.com") RdMX]) 0).
Proof.
  apply smtp_verify_without_exchanger.
  - reflexivity.
  - right. left. now exists NoAnswer.
Defined.

(** The calls of the prober are a beginning of the one dialogue: the MX
    lookup, one connection, HELO, MAIL, RCPT, QUIT, in this order and each
    at most once; and the connection goes to the first record of the
    answer. *)
Theorem smtp_verify_dialogue_prefix (w : world) (email domain : str)
    (st : state) :
  get_domain email = Some domain ->
  exists mx more,
    log (snd (smtp_verify w email st)) = log st ++ more
    /\ more `prefix_of` dialogue domain mx email
    /\ (Connect mx ∈ more ->
        exists others, dns w (log st) domain RdMX = Ok (mx :: others)).
Proof.
  intros Hdom. rewrite smtp_verify_eval, Hdom. cbv zeta.
  destruct (dns w (log st) domain RdMX) as [[|mx others]|e|] eqn:Hmx;
    try (exists [], [Resolve domain RdMX]; cbn [snd log];
         split; [reflexivity|]; split; [now eexists|];
         intros Hin; apply list_elem_of_singleton in Hin; discriminate).
  exists mx.
  repeat match goal with
    | |- context [match smtp_open ?w ?l ?h with _ => _ end] =>
        destruct (smtp_open w l h) as [[]|?|]
    | |- context [match smtp_reply ?w ?l ?c with _ => _ end] =>
        destruct (smtp_reply w l c) as [[? ?]|?|]
    end;
    cbn [snd log]; flat_logs;
    (eexists; split; [reflexivity|]; split; [now eexists|]; eauto).
Qed.

Lemma smtp_verify_dialogue_prefix_witness :
  exists mx more,
    log (snd (smtp_verify dropping (py "user@example.com") st0))
    = log st0 ++ more
    /\ more `prefix_of` dialogue (py "example.com") mx (py "user@example.com")
    /\ (Connect mx ∈ more ->
        exists others,
          dns dropping (log st0) (py "example.com") RdMX = Ok (mx :: others)).
Proof. apply smtp_verify_dialogue_prefix. reflexivity. Defined.

(** ** [verify_email], as a whole *)

Lemma smtp_verify_budget (w : world) (email : str) (st : state) :
  (length (log (snd (smtp_verify w email st))) <= length (log st) + 6)%nat
  /\ (sessions (snd (smtp_verify w email st)) <= S (sessions st))%nat.
Proof.
  probe_inv; cbn [snd log sessions]; rewrite ?length_app; cbn [length]; lia.
Qed.

Lemma smtp_verify_no_hang (w : world) (email : str) (st : state) :
  (forall l h, smtp_open w l h <> Silent) ->
  (forall l c, smtp_reply w l c <> Silent) ->
  fst (smtp_verify w email st) <> Hang.
Proof.
  intros Hopen Hreply. probe_inv; cbn [fst]; try discriminate;
    exfalso; first [eapply Hopen; eassumption | eapply Hreply; eassumption].
Qed.

Section Whole.

Variable unicode_isalpha : N -> bool.
Variable unicode_upper : N -> str.
Variable countries_get : str -> option str.
Variables (w : world) (email : str) (st : state).

Let verify := verify_email unicode_isalpha unicode_upper countries_get.
Let country_of := get_country_by_domain unicode_isalpha unicode_upper countries_get.

(** The run of the pipeline, by the outcome of each check. *)
Lemma verify_email_cases :
  (is_valid_email email = false
   /\ verify w email st =
      (Ret (Verification email false (py "Invalid Email Syntax") Unknown), st))
  \/ exists domain,
       is_valid_email email = true
       /\ get_domain email = Some domain
       /\ verify w email st =
          match domain_exists w domain st with
          | (Ret true, st1) =>
              match has_mx_records w domain st1 with
              | (Ret true, st2) =>
                  match smtp_verify w email st2 with
                  | (Ret true, st3) =>
                      (Ret (Verification email true (py "Verified")
                              (country_of domain)), st3)
                  | (Ret false, st3) =>
                      (Ret (Verification email false (py "Email Not Verified")
                              (country_of domain)), st3)
                  | (Raise e, st3) => (Raise e, st3)
                  | (Hang, st3) => (Hang, st3)
                  end
              | (Ret false, st2) =>
                  (Ret (Verification email false (py "No MX Records") Unknown),
                   st2)
              | (Raise e, st2) => (Raise e, st2)
              | (Hang, st2) => (Hang, st2)
              end
          | (Ret false, st1) =>
              (Ret (Verification email false (py "Domain Does Not Exist")
                      Unknown), st1)
          | (Raise e, st1) => (Raise e, st1)
          | (Hang, st1) => (Hang, st1)
          end.
Proof.
  destruct (is_valid_email email) eqn:Hvalid.
  - right. destruct (valid_get_domain _ Hvalid) as (l & domain & _ & Hdom).
    exists domain. repeat split; try assumption.
    now apply verify_email_valid.
  - left. split; [reflexivity|]. now apply verify_email_invalid.
Qed.

End Whole.

Ltac pipeline_cases w email st :=
  match goal with
  | |- context [verify_email ?ui ?uu ?tbl w email st] =>
      destruct (verify_email_cases ui uu tbl w email st)
        as [[Hvalid ->] | (domain & Hvalid & Hdom & ->)];
      [| rewrite domain_exists_eval;
         destruct (dns w (log st) domain RdA) as [answer|[]|] eqn:HA;
         try (rewrite has_mx_records_eval; cbn [log sessions];
              destruct (dns w (log st ++ [Resolve domain RdA]) domain RdMX)
                as [[|record records]|[]|] eqn:HMX;
              cbn [length Nat.ltb Nat.leb]);
         try match goal with
           | |- context [smtp_verify w email ?st2] =>
               let Hprobe := fresh "Hprobe" in
               destruct (smtp_verify w email st2) as [[[|]|?|] ?] eqn:Hprobe
           end ]
  end.

(** Every result the pipeline returns carries the address it was given and
    is of one of five forms; the country is inferred from the domain only
    for the two forms the prober decides, and is "Unknown" in the others. *)
Theorem verify_email_result_forms (unicode_isalpha : N -> bool)
    (unicode_upper : N -> str) (countries_get : str -> option str)
    (w : world) (email : str) (st : state) (v : verification) :
  fst (verify_email unicode_isalpha unicode_upper countries_get w email st)
    = Ret v ->
  v = Verification email false (py "Invalid Email Syntax") (py "Unknown")
  \/ v = Verification email false (py "Domain Does Not Exist") (py "Unknown")
  \/ v = Verification email false (py "No MX Records") (py "Unknown")
  \/ exists domain,
       get_domain email = Some domain
       /\ (v = Verification email false (py "Email Not Verified")
                 (get_country_by_domain unicode_isalpha unicode_upper
                    countries_get domain)
           \/ v = Verification email true (py "Verified")
                    (get_country_by_domain unicode_isalpha unicode_upper
                       countries_get domain)).
Proof.
  pipeline_cases w email st; cbn [fst]; intros [= <-]; eauto 10.
Qed.

Lemma verify_email_result_forms_witness :
  Verification (py "user@example.de") true (py "Verified") (py "Germany")
  = Verification (py "user@example.de") false (py "Invalid Email Syntax")
      (py "Unknown")
  \/ Verification (py "user@example.de") true (py "Verified") (py "Germany")
     = Verification (py "user@example.de") false (py "Domain Does Not Exist")
         (py "Unknown")
  \/ Verification (py "user@example.de") true (py "Verified") (py "Germany")
     = Verification (py "user@example.de") false (py "No MX Records")
         (py "Unknown")
  \/ exists domain,
       get_domain (py "user@example.de") = Some domain
       /\ (Verification (py "user@example.de") true (py "Verified")
             (py "Germany")
           = Verification (py "user@example.de") false
               (py "Email Not Verified")
               (get_country_by_domain ascii_only_isalpha ascii_only_upper
                  sample_countries domain)
           \/ Verification (py "user@example.de") true (py "Verified")
                (py "Germany")
              = Verification (py "user@example.de") true (py "Verified")
                  (get_country_by_domain ascii_only_isalpha ascii_only_upper
                     sample_countries domain)).
Proof.
  apply (verify_email_result_forms ascii_only_isalpha ascii_only_upper
           sample_countries friendly (py "user@example.de") st0).
  reflexivity.
Defined.

(** An exception that leaves the pipeline is an error of the resolver, met
    at the A lookup (any but NXDOMAIN) or at the MX lookup that follows it
    (any but NoAnswer and NXDOMAIN), a lookup without reply counting as
    LifetimeTimeout; no error of the prober leaves it. *)
Theorem verify_email_escapes (unicode_isalpha : N -> bool)
    (unicode_upper : N -> str) (countries_get : str -> option str)
    (w : world) (email : str) (st : state) (e : exn) :
  fst (verify_email unicode_isalpha unicode_upper countries_get w email st)
    = Raise e ->
  exists domain,
    is_valid_email email = true
    /\ get_domain email = Some domain
    /\ ((dns w (log st) domain RdA = Fails e /\ e <> NXDOMAIN)
        \/ (dns w (log st) domain RdA = Silent /\ e = LifetimeTimeout)
        \/ ((exists answer, dns w (log st) domain RdA = Ok answer)
            /\ ((dns w (log st ++ [Resolve domain RdA]) domain RdMX = Fails e
                 /\ e <> NoAnswer /\ e <> NXDOMAIN)
                \/ (dns w (log st ++ [Resolve domain RdA]) domain RdMX = Silent
                    /\ e = LifetimeTimeout)))).
Proof.
  pipeline_cases w email st; cbn [fst]; try discriminate;
    try (intros [= <-]; exists domain;
         split; [assumption|]; split; [assumption|];
         first [ left; split; [exact HA | discriminate]
               | right; left; split; [exact HA | reflexivity]
               | right; right; split; [eexists; exact HA|];
                 first [ left; split; [exact HMX | split; discriminate]
                       | right; split; [exact HMX | reflexivity] ] ]).
  intros [= ->].
  pose proof (smtp_verify_never_raises w email domain
                (State ((log st ++ [Resolve domain RdA])
                          ++ [Resolve domain RdMX]) (sessions st)) e Hdom)
    as Hnever.
  rewrite Hprobe in Hnever. now contradiction Hnever.
Qed.

Lemma verify_email_escapes_witness :
  exists domain,
    is_valid_email (py "user@example.com") = true
    /\ get_domain (py "user@example.com") = Some domain
    /\ ((dns mx_only (log st0) domain RdA = Fails NoAnswer
         /\ NoAnswer <> NXDOMAIN)
        \/ (dns mx_only (log st0) domain RdA = Silent
            /\ NoAnswer = LifetimeTimeout)
        \/ ((exists answer, dns mx_only (log st0) domain RdA = Ok answer)
            /\ ((dns mx_only (log st0 ++ [Resolve domain RdA]) domain RdMX
                 = Fails NoAnswer
                 /\ NoAnswer <> NoAnswer /\ NoAnswer <> NXDOMAIN)
                \/ (dns mx_only (log st0 ++ [Resolve domain RdA]) domain RdMX
                    = Silent
                    /\ NoAnswer = LifetimeTimeout)))).
Proof.
  apply (verify_email_escapes ascii_only_isalpha ascii_only_upper
           sample_countries mx_only (py "user@example.com") st0 NoAnswer).
  reflexivity.
Defined.

(** When the exchanger answers every SMTP call or fails it, the pipeline
    run comes to an end: it returns or raises, and does not block. *)
Theorem verify_email_ends (unicode_isalpha : N -> bool)
    (unicode_upper : N -> str) (countries_get : str -> option str)
    (w : world) (email : str) (st : state) :
  (forall l h, smtp_open w l h <> Silent) ->
  (forall l c, smtp_reply w l c <> Silent) ->
  fst (verify_email unicode_isalpha unicode_upper countries_get w email st)
    <> Hang.
Proof.
  intros Hopen Hreply.
  pipeline_cases w email st; cbn [fst]; try discriminate.
  pose proof (smtp_verify_no_hang w email
                (State ((log st ++ [Resolve domain RdA])
                          ++ [Resolve domain RdMX]) (sessions st))
                Hopen Hreply) as Hnever.
  now rewrite Hprobe in Hnever.
Qed.

Lemma verify_email_ends_witness :
  fst (verify_email ascii_only_isalpha ascii_only_upper sample_countries
         rejecting (py "user@example.com") st0) <> Hang.
Proof.
  apply verify_email_ends.
  - intros l h. discriminate.
  - intros l [| | |]; discriminate.
Defined.

(** One run of the pipeline makes at most eight calls to the network (the
    A lookup, two MX lookups, a connection and four commands) and leaves at
    most one session open: nothing is tried twice. *)
Theorem verify_email_budget (unicode_isalpha : N -> bool)
    (unicode_upper : N -> str) (countries_get : str -> option str)
    (w : world) (email : str) (st : state) :
  (length (log (snd (verify_email unicode_isalpha unicode_upper countries_get
                       w email st)))
   <= length (log st) + 8)%nat
  /\ (sessions (snd (verify_email unicode_isalpha unicode_upper countries_get
                       w email st))
      <= S (sessions st))%nat.
Proof.
  pipeline_cases w email st; cbn [snd log sessions];
    rewrite ?length_app; cbn [length]; try lia.
  all: pose proof (smtp_verify_budget w email
                (State ((log st ++ [Resolve domain RdA])
                          ++ [Resolve domain RdMX]) (sessions st))) as Hb;
    rewrite Hprobe in Hb; cbn [snd log sessions] in Hb;
    rewrite !length_app in Hb; cbn [length] in Hb; lia.
Qed.

(** A result is accepted only if every check passed: the syntax is valid,
    the A lookup was answered, the MX lookup that follows was answered
    with a record, and the prober, started after these two calls, answered
    True. *)
Theorem verify_email_accepted_inv (unicode_isalpha : N -> bool)
    (unicode_upper : N -> str) (countries_get : str -> option str)
    (w : world) (email : str) (st : state) (v : verification) :
  fst (verify_email unicode_isalpha unicode_upper countries_get w email st)
    = Ret v ->
  v_is_valid v = true ->
  is_valid_email email = true
  /\ exists domain,
       get_domain email = Some domain
       /\ (exists answer, dns w (log st) domain RdA = Ok answer)
       /\ (exists r rs,
             dns w (log st ++ [Resolve domain RdA]) domain RdMX = Ok (r :: rs))
       /\ fst (smtp_verify w email
                 (State (log st ++ [Resolve domain RdA; Resolve domain RdMX])
                    (sessions st)))
          = Ret true.
Proof.
  pipeline_cases w email st; cbn [fst]; try discriminate;
    intros [= <-]; cbn [v_is_valid]; try discriminate.
  intros _. split; [assumption|]. exists domain.
  split; [assumption|]. split; [eexists; exact HA|].
  split; [eexists _, _; exact HMX|].
  rewrite <- app_assoc in Hprobe. cbn [app] in Hprobe. now rewrite Hprobe.
Qed.

Lemma verify_email_accepted_inv_witness :
  is_valid_email (py "user@example.de") = true
  /\ exists domain,
       get_domain (py "user@example.de") = Some domain
       /\ (exists answer, dns friendly (log st0) domain RdA = Ok answer)
       /\ (exists r rs,
             dns friendly (log st0 ++ [Resolve domain RdA]) domain RdMX
             = Ok (r :: rs))
       /\ fst (smtp_verify friendly (py "user@example.de")
                 (State (log st0 ++ [Resolve domain RdA; Resolve domain RdMX])
                    (sessions st0)))
          = Ret true.
Proof.
  apply (verify_email_accepted_inv ascii_only_isalpha ascii_only_upper
           sample_countries friendly (py "user@example.de") st0
           (Verification (py "user@example.de") true (py "Verified")
              (py "Germany"))); reflexivity.
Defined.

(** ** [verify_bulk_emails], for every outcome of the runs *)

Lemma verify_email_echo (unicode_isalpha : N -> bool)
    (unicode_upper : N -> str) (countries_get : str -> option str)
    (w : world) (email : str) (st : state) (v : verification) :
  fst (verify_email unicode_isalpha unicode_upper countries_get w email st)
    = Ret v ->
  v_email v = email.
Proof.
  pipeline_cases w email st; cbn [fst]; try discriminate;
    now intros [= <-].
Qed.

Section PoolOutcomes.

Implicit Types (tasks : list (result verification)) (schedule : list nat).

Lemma gather_inv (futures : list future) (vs : list verification) :
  gather futures = Ret vs -> futures = Some <$> (Ret <$> vs).
Proof.
  revert vs. induction futures as [|f futures IH]; intros vs; cbn [gather].
  - now intros [= <-].
  - destruct f as [[v|e|]|]; try discriminate.
    destruct (gather futures) as [vs'|e|]; try discriminate.
    intros [= <-]. cbn [fmap list_fmap]. f_equal. now apply IH.
Qed.

Lemma run_workers_returned tasks schedule (vs : list verification) :
  run_workers tasks schedule = Some <$> (Ret <$> vs) -> tasks = Ret <$> vs.
Proof.
  intros Hrun. apply list_eq. intros i.
  destruct (tasks !! i) as [outcome|] eqn:Hi.
  - pose proof (run_workers_lookup _ schedule _ _ Hi) as Hslot.
    rewrite Hrun, !list_lookup_fmap in Hslot.
    rewrite list_lookup_fmap.
    destruct (vs !! i) as [v|]; [|discriminate].
    cbn [fmap option_fmap option_map] in *.
    destruct (decide (i ∈ schedule)); now inversion Hslot.
  - symmetry. apply lookup_ge_None. rewrite length_fmap.
    apply lookup_ge_None in Hi.
    apply (f_equal length) in Hrun.
    rewrite length_run_workers, !length_fmap in Hrun. lia.
Qed.

Lemma gather_blocked (tasks : list (result verification)) :
  Hang ∈ tasks ->
  gather (Some <$> tasks) = Hang
  \/ exists e, gather (Some <$> tasks) = Raise e
               /\ existsb blocked (Some <$> tasks) = true.
Proof.
  induction tasks as [|o tasks IH]; intros Hin.
  - now apply not_elem_of_nil in Hin.
  - cbn [fmap list_fmap gather existsb].
    destruct o as [v|e|]; [| right; exists e; split; [reflexivity|] | now left].
    + apply elem_of_cons in Hin as [Hin|Hin]; [discriminate|].
      destruct (IH Hin) as [Hg | (e & Hg & Hb)]; cbn [fmap] in *.
      * left. now rewrite Hg.
      * right. exists e. rewrite Hg. now split.
    + apply elem_of_cons in Hin as [Hin|Hin]; [discriminate|].
      cbn [blocked orb].
      clear IH. induction tasks as [|o tasks IH].
      * now apply not_elem_of_nil in Hin.
      * cbn [fmap list_fmap existsb].
        apply elem_of_cons in Hin as [<-|Hin]; [reflexivity|].
        rewrite (IH Hin). apply orb_true_r.
Qed.

Lemma gather_first_raise (before : list verification) (e : exn)
    (after : list (result verification)) :
  gather (Some <$> ((Ret <$> before) ++ Raise e :: after)) = Raise e.
Proof.
  induction before as [|v before IH]; [reflexivity|].
  cbn [fmap list_fmap app gather]. cbn [fmap] in IH. now rewrite IH.
Qed.

Lemma not_blocked tasks :
  Hang ∉ tasks -> existsb blocked (Some <$> tasks) = false.
Proof.
  induction tasks as [|o tasks IH]; [reflexivity|].
  intros [Ho Hin]%not_elem_of_cons. cbn [fmap list_fmap existsb].
  cbn [fmap] in IH. rewrite (IH Hin).
  destruct o; try reflexivity. congruence.
Qed.

End PoolOutcomes.

Lemma imap_all_return {T} (f : nat -> T -> result verification) (l : list T) :
  (forall i x, l !! i = Some x -> exists v, f i x = Ret v) ->
  exists vs, imap f l = Ret <$> vs.
Proof.
  revert f. induction l as [|x l IH]; intros f Hall.
  - now exists [].
  - destruct (Hall 0%nat x eq_refl) as [v Hv].
    destruct (IH (f ∘ S)) as [vs Hvs].
    { intros i y Hi. apply (Hall (S i) y Hi). }
    exists (v :: vs). cbn [imap fmap list_fmap]. rewrite Hv. f_equal. exact Hvs.
Qed.

(** When every run returns, the bulk runner returns one result per
    address, in the order of the addresses, each the result of the run for
    its address, whatever the order in which the runs finish; an empty list
    of addresses gives an empty list of results. *)
Theorem verify_bulk_emails_all_return (unicode_isalpha : N -> bool)
    (unicode_upper : N -> str) (countries_get : str -> option str)
    (worlds : nat -> world) (emails : list str) (schedule : list nat) :
  fair schedule (length emails) ->
  (forall i email,
      emails !! i = Some email ->
      exists v, task unicode_isalpha unicode_upper countries_get worlds i email
                = Ret v) ->
  exists vs,
    verify_bulk_emails unicode_isalpha unicode_upper countries_get
      worlds emails schedule = Ret vs
    /\ length vs = length emails
    /\ forall i email,
         emails !! i = Some email ->
         exists v,
           vs !! i = Some v
           /\ task unicode_isalpha unicode_upper countries_get worlds i email
              = Ret v.
Proof.
  intros Hfair Hall.
  destruct (imap_all_return _ _ Hall) as [vs Hvs]. exists vs.
  assert (Hlen : length vs = length emails).
  { apply (f_equal length) in Hvs.
    now rewrite length_imap, length_fmap in Hvs. }
  split; [|split; [exact Hlen|]].
  - unfold verify_bulk_emails.
    rewrite run_workers_fair by now rewrite length_imap.
    now rewrite Hvs, gather_returned.
  - intros i email Hi.
    assert (Hi' : (Ret <$> vs) !! i
                  = Some (task unicode_isalpha unicode_upper countries_get
                            worlds i email))
      by now rewrite <- Hvs, list_lookup_imap, Hi.
    rewrite list_lookup_fmap in Hi'.
    destruct (vs !! i) as [v|]; [|discriminate].
    exists v. split; [reflexivity|]. now inversion Hi'.
Qed.

Lemma verify_bulk_emails_all_return_witness :
  exists vs,
    verify_bulk_emails ascii_only_isalpha ascii_only_upper sample_countries
      (fun _ => friendly) [py "a@example.de"; py "bad"; py "b@example.fr"]
      [2; 0; 1]%nat = Ret vs
    /\ length vs = 3%nat
    /\ forall i email,
         [py "a@example.de"; py "bad"; py "b@example.fr"] !! i = Some email ->
         exists v,
           vs !! i = Some v
           /\ task ascii_only_isalpha ascii_only_upper sample_countries
                (fun _ => friendly) i email = Ret v.
Proof.
  apply (verify_bulk_emails_all_return ascii_only_isalpha ascii_only_upper
           sample_countries (fun _ => friendly)
           [py "a@example.de"; py "bad"; py "b@example.fr"] [2; 0; 1]%nat).
  - intros i Hi. cbn [length] in Hi.
    destruct i as [|[|[|i]]]; [| | |lia];
      rewrite !elem_of_cons; auto.
  - intros [|[|[|i]]] email; cbn [lookup list_lookup]; intros [= <-];
      eexists; vm_compute; reflexivity.
Defined.

(** The result of the bulk runner does not depend on the order in which the
    runs finish, as long as each of them gets its turn. *)
Theorem verify_bulk_emails_any_order (unicode_isalpha : N -> bool)
    (unicode_upper : N -> str) (countries_get : str -> option str)
    (worlds : nat -> world) (emails : list str) (schedule1 schedule2 : list nat) :
  fair schedule1 (length emails) ->
  fair schedule2 (length emails) ->
  verify_bulk_emails unicode_isalpha unicode_upper countries_get
    worlds emails schedule1
  = verify_bulk_emails unicode_isalpha unicode_upper countries_get
      worlds emails schedule2.
Proof.
  intros H1 H2. unfold verify_bulk_emails.
  now rewrite !run_workers_fair by now rewrite length_imap.
Qed.

Lemma verify_bulk_emails_any_order_witness :
  verify_bulk_emails ascii_only_isalpha ascii_only_upper sample_countries
    (fun _ => rejecting) [py "a@example.de"; py "b@example.fr"] [1; 0]%nat
  = verify_bulk_emails ascii_only_isalpha ascii_only_upper sample_countries
      (fun _ => rejecting) [py "a@example.de"; py "b@example.fr"]
      [0; 0; 1]%nat.
Proof.
  apply verify_bulk_emails_any_order;
    intros i Hi; cbn [length] in Hi;
    (destruct i as [|[|i]]; [| |lia]); rewrite !elem_of_cons; auto.
Defined.

(** Whenever the bulk runner returns, under any schedule, it returns one
    result per address: the result at each position is the one of the run
    for the address at that position, and carries that address. *)
Theorem verify_bulk_emails_returned_inv (unicode_isalpha : N -> bool)
    (unicode_upper : N -> str) (countries_get : str -> option str)
    (worlds : nat -> world) (emails : list str) (schedule : list nat)
    (vs : list verification) :
  verify_bulk_emails unicode_isalpha unicode_upper countries_get
    worlds emails schedule = Ret vs ->
  length vs = length emails
  /\ forall i email,
       emails !! i = Some email ->
       exists v,
         vs !! i = Some v
         /\ task unicode_isalpha unicode_upper countries_get worlds i email
            = Ret v
         /\ v_email v = email.
Proof.
  unfold verify_bulk_emails. intros Hret.
  destruct (gather _) as [vs'|e|] eqn:Hgather;
    [|destruct (existsb _ _); discriminate|discriminate].
  injection Hret as ->.
  apply gather_inv, run_workers_returned in Hgather.
  split.
  - apply (f_equal length) in Hgather.
    now rewrite length_imap, length_fmap in Hgather.
  - intros i email Hi.
    assert (Hi' : (Ret <$> vs) !! i
                  = Some (task unicode_isalpha unicode_upper countries_get
                            worlds i email))
      by now rewrite <- Hgather, list_lookup_imap, Hi.
    rewrite list_lookup_fmap in Hi'.
    destruct (vs !! i) as [v|]; [|discriminate].
    exists v. injection Hi' as Hv. repeat split; [now symmetry|].
    symmetry in Hv. unfold task in Hv.
    now apply verify_email_echo in Hv.
Qed.

Lemma verify_bulk_emails_returned_inv_witness :
  length [Verification (py "a@example.de") true (py "Verified") (py "Germany");
          Verification (py "bad") false (py "Invalid Email Syntax") Unknown;
          Verification (py "b@example.fr") false (py "Email Not Verified")
            (py "France")]
  = length [py "a@example.de"; py "bad"; py "b@example.fr"]
  /\ forall i email,
       [py "a@example.de"; py "bad"; py "b@example.fr"] !! i = Some email ->
       exists v,
         [Verification (py "a@example.de") true (py "Verified") (py "Germany");
          Verification (py "bad") false (py "Invalid Email Syntax") Unknown;
          Verification (py "b@example.fr") false (py "Email Not Verified")
            (py "France")] !! i = Some v
         /\ task ascii_only_isalpha ascii_only_upper sample_countries
              (fun i => match i with 2%nat => rejecting | _ => friendly end)
              i email = Ret v
         /\ v_email v = email.
Proof.
  apply (verify_bulk_emails_returned_inv ascii_only_isalpha ascii_only_upper
           sample_countries
           (fun i => match i with 2%nat => rejecting | _ => friendly end)
           [py "a@example.de"; py "bad"; py "b@example.fr"]
           [2; 0; 2; 1]%nat).
  vm_compute. reflexivity.
Defined.

(** One run that never ends keeps the bulk runner from ending, whatever
    the other runs do. *)
Theorem verify_bulk_emails_blocked (unicode_isalpha : N -> bool)
    (unicode_upper : N -> str) (countries_get : str -> option str)
    (worlds : nat -> world) (emails : list str) (schedule : list nat)
    (i : nat) (email : str) :
  fair schedule (length emails) ->
  emails !! i = Some email ->
  task unicode_isalpha unicode_upper countries_get worlds i email = Hang ->
  verify_bulk_emails unicode_isalpha unicode_upper countries_get
    worlds emails schedule = Hang.
Proof.
  intros Hfair Hi Htask. unfold verify_bulk_emails.
  rewrite run_workers_fair by now rewrite length_imap.
  destruct (gather_blocked
              (imap (task unicode_isalpha unicode_upper countries_get worlds)
                 emails)) as [Hg | (e & Hg & Hb)].
  - eapply list_elem_of_lookup_2. rewrite list_lookup_imap, Hi.
    cbn [fmap option_fmap option_map]. now rewrite Htask.
  - now rewrite Hg.
  - now rewrite Hg, Hb.
Qed.

Lemma verify_bulk_emails_blocked_witness :
  verify_bulk_emails ascii_only_isalpha ascii_only_upper sample_countries
    (fun i => match i with 1%nat => unresponsive | _ => mx_only end)
    [py "a@example.de"; py "b@example.fr"] [0; 1]%nat = Hang.
Proof.
  apply (verify_bulk_emails_blocked ascii_only_isalpha ascii_only_upper
           sample_countries _ _ _ 1%nat (py "b@example.fr")).
  - intros i Hi. cbn [length] in Hi.
    destruct i as [|[|i]]; [| |lia]; rewrite !elem_of_cons; auto.
  - reflexivity.
  - reflexivity.
Defined.

(** When no run blocks, the bulk runner raises the exception of the first
    address, in the order of the input, whose run raises; the results of
    the runs that returned are not handed back. *)
Theorem verify_bulk_emails_first_raise (unicode_isalpha : N -> bool)
    (unicode_upper : N -> str) (countries_get : str -> option str)
    (worlds : nat -> world) (before : list str) (email : str)
    (after : list str) (schedule : list nat) (e : exn) :
  fair schedule (length (before ++ email :: after)) ->
  (forall j address,
      before !! j = Some address ->
      exists v, task unicode_isalpha unicode_upper countries_get worlds j
                  address = Ret v) ->
  task unicode_isalpha unicode_upper countries_get worlds (length before) email
    = Raise e ->
  (forall j address,
      (before ++ email :: after) !! j = Some address ->
      task unicode_isalpha unicode_upper countries_get worlds j address
      <> Hang) ->
  verify_bulk_emails unicode_isalpha unicode_upper countries_get
    worlds (before ++ email :: after) schedule = Raise e.
Proof.
  intros Hfair Hbefore Hraise Hnohang. unfold verify_bulk_emails.
  rewrite run_workers_fair by now rewrite length_imap.
  assert (Hblocked :
            existsb blocked
              (Some <$> imap (task unicode_isalpha unicode_upper countries_get
                                worlds) (before ++ email :: after)) = false).
  { apply not_blocked. intros Hin.
    apply list_elem_of_lookup_1 in Hin as [j Hj].
    rewrite list_lookup_imap in Hj.
    destruct ((before ++ email :: after) !! j) as [address|] eqn:Haddr;
      [|discriminate].
    injection Hj as Hj. now apply (Hnohang j address Haddr). }
  rewrite Hblocked.
  destruct (imap_all_return _ _ Hbefore) as [vs Hvs].
  rewrite imap_app, Hvs. cbn [imap]. rewrite Nat.add_0_r, Hraise.
  now rewrite gather_first_raise.
Qed.

Lemma verify_bulk_emails_first_raise_witness :
  verify_bulk_emails ascii_only_isalpha ascii_only_upper sample_countries
    (fun i => match i with 0%nat => friendly | _ => mx_only end)
    ([py "a@example.de"] ++ py "b@example.fr" :: [py "c@example.jp"])
    [2; 1; 0]%nat
  = Raise NoAnswer.
Proof.
  apply verify_bulk_emails_first_raise.
  - intros i Hi. cbn [length app] in Hi.
    destruct i as [|[|[|i]]]; [| | |lia]; rewrite !elem_of_cons; auto.
  - intros [|j] address; cbn [lookup list_lookup]; [|discriminate].
    intros [= <-]. eexists. vm_compute. reflexivity.
  - reflexivity.
  - intros [|[|[|j]]] address; cbn [app lookup list_lookup];
      intros [= <-]; vm_compute; discriminate.
Defined.

(** ** Reading the addresses *)

Section StripFacts.

Variable unicode_isspace : N -> bool.

Local Abbreviation sp := (isspace unicode_isspace).
Local Abbreviation lstrip_ := (lstrip unicode_isspace).
Local Abbreviation rstrip_ := (rstrip unicode_isspace).
Local Abbreviation strip_ := (strip unicode_isspace).

Lemma lstrip_split (s : str) :
  exists ws, s = ws ++ lstrip_ s /\ forallb sp ws = true.
Proof.
  induction s as [|c s (ws & Hs & Hws)]; [now exists []|].
  cbn [lstrip].
  destruct (sp c) eqn:Hc.
  - exists (c :: ws). cbn [app forallb]. rewrite Hc, Hws. split; [|reflexivity].
    now f_equal.
  - now exists [].
Qed.

Lemma lstrip_head (s : str) (c : N) (r : str) :
  lstrip_ s = c :: r -> sp c = false.
Proof.
  induction s as [|x s IH]; [discriminate|].
  cbn [lstrip]. destruct (sp x) eqn:Hx; [exact IH|].
  now intros [= <- _].
Qed.

Lemma lstrip_fixed (c : N) (r : str) :
  sp c = false -> lstrip_ (c :: r) = c :: r.
Proof. intros Hc. cbn [lstrip]. now rewrite Hc. Qed.

Lemma lstrip_spaces (ws s : str) :
  forallb sp ws = true -> lstrip_ (ws ++ s) = lstrip_ s.
Proof.
  induction ws as [|c ws IH]; [reflexivity|].
  cbn [forallb app lstrip]. intros [Hc Hws]%andb_true_iff.
  rewrite Hc. auto.
Qed.

Lemma rstrip_split (s : str) :
  exists ws, s = rstrip_ s ++ ws /\ forallb sp ws = true.
Proof.
  induction s as [|c s (ws & Hs & Hws)]; [now exists []|].
  cbn [rstrip].
  destruct (rstrip_ s) as [|k kept] eqn:Hkept.
  - destruct (sp c) eqn:Hc.
    + exists (c :: ws). cbn [app forallb]. rewrite Hc, Hws.
      split; [now f_equal | reflexivity].
    + exists ws. cbn [app]. split; [now f_equal | assumption].
  - exists ws. cbn [app] in *. split; [now f_equal | assumption].
Qed.

Lemma rstrip_last (s : str) :
  rstrip_ s = [] \/ exists r c, rstrip_ s = r ++ [c] /\ sp c = false.
Proof.
  induction s as [|x s IH]; [now left|].
  cbn [rstrip].
  destruct (rstrip_ s) as [|k kept] eqn:Hkept.
  - destruct (sp x) eqn:Hx; [now left|].
    right. now exists [], x.
  - right. destruct IH as [IH | (r & c & IH & Hc)]; [discriminate|].
    exists (x :: r), c. cbn [app]. now rewrite IH.
Qed.

Lemma rstrip_spaces (s ws : str) :
  forallb sp ws = true -> rstrip_ (s ++ ws) = rstrip_ s.
Proof.
  intros Hws.
  assert (Hbase : rstrip_ ws = []).
  { induction ws as [|c ws IH]; [reflexivity|].
    cbn [forallb] in Hws. apply andb_true_iff in Hws as [Hc Hws].
    cbn [rstrip]. now rewrite (IH Hws), Hc. }
  induction s as [|x s IH]; [exact Hbase|].
  cbn [app rstrip]. now rewrite IH.
Qed.

Lemma rstrip_fixed (s : str) (c : N) :
  sp c = false -> rstrip_ (s ++ [c]) = s ++ [c].
Proof.
  intros Hc. induction s as [|x s IH].
  - cbn [app rstrip]. now rewrite Hc.
  - cbn [app rstrip]. rewrite IH.
    destruct (s ++ [c]) eqn:Hs; [|reflexivity].
    now destruct s.
Qed.

(** What [strip] returns is empty, or begins and ends with a character
    that is not whitespace. *)
Lemma strip_ends (s : str) :
  strip_ s = []
  \/ exists c r d, head (strip_ s) = Some c /\ sp c = false
                   /\ strip_ s = r ++ [d] /\ sp d = false.
Proof.
  unfold strip.
  destruct (rstrip_last (lstrip_ s)) as [Hempty | (r & d & Hr & Hd)];
    [now left | right].
  destruct (rstrip_split (lstrip_ s)) as (ws & Hs & _).
  destruct (lstrip_ s) as [|c rest] eqn:Hl.
  - rewrite Hr in Hs. now destruct r.
  - exists c, r, d. repeat split; try assumption.
    + rewrite Hr in Hs |- *. destruct r; cbn [app] in *; now inversion Hs.
    + now apply lstrip_head with s rest.
Qed.

Lemma strip_within (s : str) (x : N) : x ∈ strip_ s -> x ∈ s.
Proof.
  unfold strip. intros Hx.
  destruct (lstrip_split s) as (ws & Hs & _).
  destruct (rstrip_split (lstrip_ s)) as (ws' & Hs' & _).
  rewrite Hs, Hs', !elem_of_app. auto.
Qed.

Lemma strip_spaces (s ws : str) :
  forallb sp ws = true -> strip_ (s ++ ws) = strip_ s.
Proof.
  unfold strip. intros Hws.
  destruct (lstrip_split s) as (ws0 & Hs & Hws0).
  destruct (lstrip_ s) as [|c r] eqn:Hl.
  - rewrite app_nil_r in Hs. subst ws0.
    rewrite <- (app_nil_r (s ++ ws)), lstrip_spaces; [reflexivity|].
    rewrite forallb_app. now rewrite Hws0, Hws.
  - rewrite Hs at 1. rewrite <- app_assoc, lstrip_spaces by assumption.
    cbn [app]. rewrite lstrip_fixed by now apply lstrip_head with s r.
    exact (rstrip_spaces (c :: r) ws Hws).
Qed.

Lemma strip_fixed (c : N) (r : str) (d : N) (s : str) :
  head s = Some c -> sp c = false -> s = r ++ [d] -> sp d = false ->
  strip_ s = s.
Proof.
  unfold strip.
  intros Hhead Hc Hs Hd.
  apply head_Some in Hhead as [rest Hrest].
  rewrite Hrest at 1. rewrite lstrip_fixed by assumption.
  rewrite <- Hrest, Hs. now apply rstrip_fixed.
Qed.

End StripFacts.

Lemma file_lines_line (e rest : str) :
  10 ∉ e -> file_lines (e ++ 10 :: rest) = (e ++ [10]) :: file_lines rest.
Proof.
  induction e as [|c e IH]; [reflexivity|].
  intros [Hc He]%not_elem_of_cons. cbn [app file_lines].
  destruct (N.eqb_spec c 10) as [->|_]; [congruence|].
  now rewrite (IH He).
Qed.

Lemma file_lines_shape (text line : str) :
  line ∈ file_lines text ->
  exists l, (10 ∉ l) /\ (line = l ++ [10] \/ (line = l /\ l <> [])).
Proof.
  revert line. induction text as [|c text IH]; intros line; cbn [file_lines].
  - intros Hin. now apply not_elem_of_nil in Hin.
  - destruct (N.eqb_spec c 10) as [->|Hc].
    + intros [->|Hin]%elem_of_cons; [|now apply IH].
      exists []. split; [apply not_elem_of_nil | now left].
    + destruct (file_lines text) as [|first lines] eqn:Hlines.
      * intros ->%list_elem_of_singleton. exists [c]. split; [|now right].
        rewrite list_elem_of_singleton. congruence.
      * intros [->|Hin]%elem_of_cons.
        -- destruct (IH first) as (l & Hl & Hfirst); [now left|].
           exists (c :: l). split.
           ++ apply not_elem_of_cons. split; [congruence | assumption].
           ++ destruct Hfirst as [-> | [-> _]]; [now left | now right].
        -- apply IH. now right.
Qed.

Lemma isspace_line_feed (unicode_isspace : N -> bool) :
  isspace unicode_isspace 10 = true.
Proof. reflexivity. Qed.

Lemma read_emails_elem (unicode_isspace : N -> bool) (text e : str) :
  e ∈ read_emails unicode_isspace text <->
  exists line,
    line ∈ file_lines text /\ e = strip unicode_isspace line /\ e <> [].
Proof.
  unfold read_emails. rewrite list_elem_of_In, in_map_iff. split.
  - intros (line & <- & [Hline Hkeep]%filter_In).
    exists line. rewrite list_elem_of_In. repeat split; try assumption.
    intros Hempty. now rewrite Hempty in Hkeep.
  - intros (line & Hline & -> & Hne). exists line. split; [reflexivity|].
    apply filter_In. rewrite <- list_elem_of_In. split; [assumption|].
    now destruct (strip unicode_isspace line).
Qed.

Lemma read_emails_are_clean (unicode_isspace : N -> bool) (text e : str) :
  e ∈ read_emails unicode_isspace text -> clean unicode_isspace e.
Proof.
  intros (line & Hline & -> & Hne)%read_emails_elem. split.
  - destruct (file_lines_shape _ _ Hline) as (l & Hl & [-> | [-> _]]).
    + rewrite strip_spaces by reflexivity.
      intros Hin. now apply strip_within in Hin.
    + intros Hin. now apply strip_within in Hin.
  - destruct (strip_ends unicode_isspace line) as [Hempty|Hends];
      [contradiction | exact Hends].
Qed.

Lemma clean_no_final_line_feed (unicode_isspace : N -> bool) (e : str) :
  clean unicode_isspace e -> ~ ends_with_newline e.
Proof.
  intros (_ & c & r & d & _ & _ & -> & Hd). unfold ends_with_newline.
  rewrite last_snoc. intros [= ->]. now rewrite isspace_line_feed in Hd.
Qed.

(** The addresses [main] reads from the file are not empty, hold no line
    feed, and neither begin nor end with whitespace. *)
Theorem read_emails_clean (unicode_isspace : N -> bool) (text e : str) :
  e ∈ read_emails unicode_isspace text ->
  e <> [] /\ clean unicode_isspace e.
Proof.
  intros Hin. split; [|now apply read_emails_are_clean with text].
  now apply read_emails_elem in Hin as (line & _ & _ & Hne).
Qed.

Lemma read_emails_clean_witness :
  py "x@y.z" <> [] /\ clean ascii_only_isspace (py "x@y.z").
Proof.
  apply (read_emails_clean ascii_only_isspace
           (py "a@b.c" ++ [10; 10; 32; 9] ++ py "x@y.z" ++ [32; 13; 10])).
  apply list_elem_of_In. vm_compute. auto.
Defined.

(** For an address read from the file, the syntax check is exactly the
    pattern of the expression: such an address cannot owe its acceptance
    to a final line feed. *)
Theorem read_emails_syntax (unicode_isspace : N -> bool) (text e : str) :
  e ∈ read_emails unicode_isspace text ->
  (is_valid_email e = true <-> code_pattern e).
Proof.
  intros Hin%read_emails_are_clean%clean_no_final_line_feed.
  rewrite is_valid_email_iff. split.
  - intros (body & nl & -> & [-> | ->] & Hbody).
    + now rewrite app_nil_r.
    + exfalso. apply Hin. apply last_snoc.
  - intros He. exists e, []. rewrite app_nil_r. auto.
Qed.

Lemma read_emails_syntax_witness :
  is_valid_email (py "x@y.z") = true <-> code_pattern (py "x@y.z").
Proof.
  apply (read_emails_syntax ascii_only_isspace
           (py "a@b.c" ++ [10; 10; 32; 9] ++ py "x@y.z" ++ [32; 13; 10])).
  apply list_elem_of_In. vm_compute. auto.
Defined.

(** ** Writing the accepted addresses, and reading them back *)

Lemma write_valid_lines (results : list verification) (file : str) :
  write_valid results file = file ++ valid_lines results.
Proof.
  unfold write_valid, valid_lines. revert file.
  induction results as [|r results IH]; intros file; cbn [foldl List.filter].
  - now rewrite app_nil_r.
  - rewrite IH. destruct (v_is_valid r); [|reflexivity].
    cbn [List.map concat]. now rewrite <- !app_assoc.
Qed.

(** The file [save_valid_emails] writes holds the addresses of the accepted
    results and no other, one to a line, in the order of the results; it is
    written, empty, when no result is accepted. *)
Theorem save_valid_emails_lines (fs : filesystem)
    (results : list verification) (filename : str) (u : unit) :
  open_write fs filename = Granted u ->
  save_valid_emails fs results filename = Granted (valid_lines results)
  /\ ((forall r, r ∈ results -> v_is_valid r = false) ->
      save_valid_emails fs results filename = Granted []).
Proof.
  intros Hopen. unfold save_valid_emails. rewrite Hopen, write_valid_lines.
  split; [reflexivity|]. intros Hnone. f_equal. unfold valid_lines.
  assert (Hfilter : List.filter v_is_valid results = []).
  { induction results as [|r results IH]; [reflexivity|].
    cbn [List.filter]. rewrite (Hnone r) by now left.
    apply IH. intros r' Hr'. apply Hnone. now right. }
  now rewrite Hfilter.
Qed.

Lemma save_valid_emails_lines_witness :
  save_valid_emails (one_file (py "leads.txt") (py "a@b.de"))
    [Verification (py "a@b.de") true (py "Verified") (py "Germany");
     Verification (py "bad") false (py "Invalid Email Syntax") Unknown;
     Verification (py "c@d.fr") true (py "Verified") (py "France")]
    (py "valid_emails.txt")
  = Granted (py "a@b.de" ++ [10] ++ py "c@d.fr" ++ [10]).
Proof.
  rewrite (proj1 (save_valid_emails_lines
                    (one_file (py "leads.txt") (py "a@b.de")) _
                    (py "valid_emails.txt") tt eq_refl)).
  reflexivity.
Defined.

Ltac literal_chars :=
  repeat match goal with
    | |- context [chr ?a] =>
        let v := eval vm_compute in (chr a) in change (chr a) with v
    | H : context [chr ?a] |- _ =>
        let v := eval vm_compute in (chr a) in change (chr a) with v in H
    end.

Ltac bool_to_prop H :=
  repeat first
    [ rewrite orb_true_iff in H | rewrite andb_true_iff in H
    | rewrite N.leb_le in H | rewrite N.eqb_eq in H ].

(** The characters of the three sets are printable ASCII. *)
Lemma in_set_range (c : N) :
  in_set local_set c = true \/ in_set label_set c = true
  \/ in_set tail_set c = true ->
  43 <= c <= 122.
Proof.
  unfold in_set, local_set, label_set, tail_set, existsb, in_item.
  literal_chars. intros H. bool_to_prop H. lia.
Qed.

Lemma range_not_space (unicode_isspace : N -> bool) (c : N) :
  43 <= c <= 122 -> isspace unicode_isspace c = false /\ c <> 10.
Proof.
  intros Hc. split; [|lia]. unfold isspace, ascii_isspace.
  destruct (N.ltb_spec c 128); [|lia].
  destruct (N.leb_spec 9 c), (N.leb_spec c 13), (N.leb_spec 28 c),
    (N.leb_spec c 31), (N.eqb_spec c 32); cbn [andb orb]; try reflexivity; lia.
Qed.

Lemma run_of_range (cs : list set_item) (s : str) :
  cs = local_set \/ cs = label_set \/ cs = tail_set ->
  forallb (in_set cs) s = true -> Forall (fun c => 43 <= c <= 122) s.
Proof.
  intros Hcs Hs. apply Forall_forall. intros c Hc.
  apply list_elem_of_In in Hc.
  rewrite forallb_forall in Hs. specialize (Hs c Hc).
  apply in_set_range. destruct Hcs as [-> | [-> | ->]]; auto.
Qed.

Lemma code_pattern_range (e : str) :
  code_pattern e -> e <> [] /\ Forall (fun c => 43 <= c <= 122) e.
Proof.
  intros (l & d & t & -> & [Hne Hl] & [_ Hd] & [_ Ht]). split.
  - now destruct l.
  - rewrite Forall_app, Forall_cons, Forall_app, Forall_cons.
    repeat split; try (literal_chars; lia).
    + apply (run_of_range local_set); auto.
    + apply (run_of_range label_set); auto.
    + apply (run_of_range tail_set); auto.
Qed.

Lemma range_clean (unicode_isspace : N -> bool) (e : str) :
  e <> [] -> Forall (fun c => 43 <= c <= 122) e -> clean unicode_isspace e.
Proof.
  intros Hne Hall. split.
  - intros Hin. rewrite Forall_forall in Hall.
    specialize (Hall 10 Hin). lia.
  - destruct e as [|c rest]; [congruence|].
    destruct (last (c :: rest)) as [d|] eqn:Hlast;
      [|now apply last_None in Hlast].
    apply last_Some in Hlast as [r Hr].
    exists c, r, d. rewrite Forall_forall in Hall. repeat split.
    + apply (range_not_space unicode_isspace c), Hall. now left.
    + exact Hr.
    + apply (range_not_space unicode_isspace d), Hall.
      rewrite Hr, elem_of_app, list_elem_of_singleton. now right.
Qed.

Lemma read_lines_back (unicode_isspace : N -> bool) (es : list str) :
  Forall (clean unicode_isspace) es ->
  read_emails unicode_isspace (concat (List.map (fun e => e ++ [10]) es)) = es.
Proof.
  induction 1 as [|e es (Hlf & c & r & d & Hhead & Hc & Hr & Hd) _ IH];
    [reflexivity|].
  cbn [List.map concat]. rewrite <- app_assoc. cbn [app].
  unfold read_emails in *. rewrite (file_lines_line _ _ Hlf).
  cbn [List.filter].
  assert (Hstrip : strip unicode_isspace (e ++ [10]) = e).
  { rewrite strip_spaces by reflexivity.
    now apply strip_fixed with c r d. }
  rewrite Hstrip.
  destruct e as [|x e']; [discriminate|].
  cbn [truthy List.map]. rewrite Hstrip. now rewrite IH.
Qed.

Lemma valid_lines_read_back (unicode_isspace : N -> bool)
    (results : list verification) :
  (forall r,
      r ∈ results -> v_is_valid r = true ->
      is_valid_email (v_email r) = true /\ ~ ends_with_newline (v_email r)) ->
  read_emails unicode_isspace (valid_lines results)
  = List.map v_email (List.filter v_is_valid results).
Proof.
  intros Hall. unfold valid_lines.
  rewrite <- (read_lines_back unicode_isspace
                (List.map v_email (List.filter v_is_valid results))).
  - now rewrite List.map_map.
  - apply Forall_forall. intros e He.
    apply list_elem_of_In, in_map_iff in He as (r & <- & [Hr Hv]%filter_In).
    apply list_elem_of_In in Hr. destruct (Hall r Hr Hv) as [Hvalid Hnl].
    apply is_valid_email_iff in Hvalid as (body & nl & Heq & Hcase & Hbody).
    assert (Hb : body = v_email r).
    { destruct Hcase as [-> | ->]; [now rewrite app_nil_r in Heq|].
      exfalso. apply Hnl. rewrite Heq. apply last_snoc. }
    subst body. destruct (code_pattern_range _ Hbody).
    now apply range_clean.
Qed.

(** Read back the way [main] reads its input, the file written for a list
    of results gives the addresses of the accepted results again, as long
    as each of them passes the syntax check without a final line feed. *)
Theorem saved_file_reads_back (unicode_isspace : N -> bool)
    (results : list verification) :
  (forall r,
      r ∈ results -> v_is_valid r = true ->
      is_valid_email (v_email r) = true /\ ~ ends_with_newline (v_email r)) ->
  read_emails unicode_isspace (valid_lines results)
  = List.map v_email (List.filter v_is_valid results).
Proof. apply valid_lines_read_back. Qed.

Lemma saved_file_reads_back_witness :
  read_emails ascii_only_isspace
    (valid_lines
       [Verification (py "a@b.de") true (py "Verified") (py "Germany");
        Verification (py "bad") false (py "Invalid Email Syntax") Unknown])
  = [py "a@b.de"].
Proof.
  apply (saved_file_reads_back ascii_only_isspace
           [Verification (py "a@b.de") true (py "Verified") (py "Germany");
            Verification (py "bad") false (py "Invalid Email Syntax") Unknown]).
  intros r Hr Hv. apply list_elem_of_In in Hr.
  destruct Hr as [<- | [<- | []]].
  - split; [reflexivity|]. unfold ends_with_newline. vm_compute. discriminate.
  - discriminate Hv.
Defined.

(** ** [main] *)

Lemma accepted_is_valid (unicode_isalpha : N -> bool)
    (unicode_upper : N -> str) (countries_get : str -> option str)
    (w : world) (email : str) (st : state) (v : verification) :
  fst (verify_email unicode_isalpha unicode_upper countries_get w email st)
    = Ret v ->
  v_is_valid v = true -> is_valid_email email = true.
Proof.
  pipeline_cases w email st; cbn [fst]; try discriminate;
    intros [= <-]; cbn [v_is_valid]; try discriminate; auto.
Qed.

Lemma bulk_results (unicode_isalpha : N -> bool)
    (unicode_upper : N -> str) (countries_get : str -> option str)
    (worlds : nat -> world) (emails : list str) (schedule : list nat)
    (results : list verification) (r : verification) :
  verify_bulk_emails unicode_isalpha unicode_upper countries_get
    worlds emails schedule = Ret results ->
  r ∈ results ->
  v_email r ∈ emails
  /\ (v_is_valid r = true -> is_valid_email (v_email r) = true).
Proof.
  unfold verify_bulk_emails. intros Hret Hr.
  destruct (gather _) as [vs|e|] eqn:Hgather;
    [|destruct (existsb _ _); discriminate|discriminate].
  injection Hret as ->.
  apply gather_inv, run_workers_returned in Hgather.
  apply list_elem_of_lookup_1 in Hr as [i Hi].
  assert (Hi' : (Ret <$> results) !! i = Some (Ret r))
    by now rewrite list_lookup_fmap, Hi.
  rewrite <- Hgather, list_lookup_imap in Hi'.
  destruct (emails !! i) as [email|] eqn:Hemail; [|discriminate].
  injection Hi' as Htask. unfold task in Htask.
  pose proof (verify_email_echo _ _ _ _ _ _ _ Htask) as Hecho.
  rewrite Hecho. split.
  - now apply list_elem_of_lookup_2 with i.
  - now apply accepted_is_valid with (1 := Htask).
Qed.

Section MainFacts.

Variable unicode_isalpha : N -> bool.
Variable unicode_upper : N -> str.
Variable countries_get : str -> option str.
Variable unicode_isspace : N -> bool.
Variables (Fore_GREEN Fore_RED : str).
Variables (fs : filesystem) (term : terminal).
Variables (worlds : nat -> world) (schedule : list nat).
Variable input_file : str.

Local Abbreviation the_run :=
  (main unicode_isalpha unicode_upper countries_get unicode_isspace
     Fore_GREEN Fore_RED fs term worlds schedule input_file).

Local Abbreviation bulk :=
  (verify_bulk_emails unicode_isalpha unicode_upper countries_get worlds).

Local Abbreviation report_ := (report Fore_GREEN Fore_RED).

(** The report loop: every line is shown, or the lines before the one
    whose [print] raises. *)
Lemma print_all_reports (results : list verification) (console0 : list shown) :
  match print_all term console0
          (List.map (report_text Fore_GREEN Fore_RED) results) with
  | (None, console) => console = console0 ++ List.map report_ results
  | (Some e, console) =>
      exists before r rest,
        results = before ++ r :: rest
        /\ console = console0 ++ List.map report_ before
        /\ term console (report_text Fore_GREEN Fore_RED r) = Some e
  end.
Proof.
  revert console0. induction results as [|r results IH]; intros console0.
  - cbn [List.map print_all]. now rewrite app_nil_r.
  - cbn [List.map print_all].
    destruct (term console0 (report_text Fore_GREEN Fore_RED r)) as [e|] eqn:Hr.
    + exists [], r, results. cbn [List.map app]. now rewrite app_nil_r.
    + specialize (IH (console0 ++ [Print (report_text Fore_GREEN Fore_RED r)])).
      destruct (print_all _ _ _) as [[e|] console].
      * destruct IH as (before & r' & rest & -> & -> & Hterm).
        exists (r :: before), r', rest. cbn [List.map app].
        rewrite <- app_assoc in *. now repeat split.
      * rewrite IH, <- app_assoc. reflexivity.
Qed.

Lemma say_not_found_cases :
  (term [prompt] (not_found_text Fore_RED) = None
   /\ say_not_found Fore_RED term = Run Returned [] [prompt; not_found Fore_RED])
  \/ exists e,
       term [prompt] (not_found_text Fore_RED) = Some e
       /\ say_not_found Fore_RED term = Run (ConsoleError e) [] [prompt].
Proof.
  unfold say_not_found. cbn [print_all].
  destruct (term [prompt] (not_found_text Fore_RED)) as [e|]; eauto.
Qed.

(** How a run of [main] can go. *)
Lemma main_cases :
  (saved the_run = [] /\ console the_run = [prompt]
   /\ ended the_run <> Returned /\ ended the_run <> OSError FileNotFoundError)
  \/ (the_run = Run Returned [] [prompt; not_found Fore_RED]
      /\ term [prompt] (not_found_text Fore_RED) = None
      /\ (open_read fs input_file = Refused FileNotFoundError
          \/ exists text results,
               open_read fs input_file = Granted text
               /\ bulk (read_emails unicode_isspace text) schedule = Ret results
               /\ open_write fs (py "valid_emails.txt")
                  = Refused FileNotFoundError))
  \/ exists text results,
       open_read fs input_file = Granted text
       /\ bulk (read_emails unicode_isspace text) schedule = Ret results
       /\ saved the_run = [(py "valid_emails.txt", valid_lines results)]
       /\ ((ended the_run = Returned
            /\ console the_run = prompt :: List.map report_ results)
           \/ exists e before r rest,
                results = before ++ r :: rest
                /\ term (prompt :: List.map report_ before)
                     (report_text Fore_GREEN Fore_RED r) = Some e
                /\ ended the_run = ConsoleError e
                /\ console the_run = prompt :: List.map report_ before).
Proof.
  unfold main, save_valid_emails.
  assert (Hnf :
    (saved (say_not_found Fore_RED term) = []
     /\ console (say_not_found Fore_RED term) = [prompt]
     /\ ended (say_not_found Fore_RED term) <> Returned
     /\ ended (say_not_found Fore_RED term) <> OSError FileNotFoundError)
    \/ (say_not_found Fore_RED term
        = Run Returned [] [prompt; not_found Fore_RED]
        /\ term [prompt] (not_found_text Fore_RED) = None)).
  { destruct say_not_found_cases as [[Hterm ->] | (e & Hterm & ->)];
      [now right | left; repeat split; discriminate]. }
  destruct (open_read fs input_file) as [text|[]] eqn:Hread;
    try (left; repeat split; discriminate).
  2: { destruct Hnf as [Hnf | [Hrun Hterm]]; [now left|].
       right. left. repeat split; auto. }
  destruct (bulk (read_emails unicode_isspace text) schedule)
    as [results|e|] eqn:Hbulk;
    try (left; repeat split; discriminate).
  destruct (open_write fs (py "valid_emails.txt")) as [[]|[]] eqn:Hwrite;
    try (left; repeat split; discriminate).
  - right. right. exists text, results. rewrite write_valid_lines.
    pose proof (print_all_reports results [prompt]) as Hprint.
    destruct (print_all _ _ _) as [[e|] shown].
    + destruct Hprint as (before & r & rest & Hres & -> & Hterm).
      repeat split; try assumption. right.
      exists e, before, r, rest. now repeat split.
    + subst shown. repeat split; try assumption. now left.
  - destruct Hnf as [Hnf | [Hrun Hterm]]; [now left|].
    right. left. repeat split; auto. right. now exists text, results.
Qed.

End MainFacts.

Lemma bulk_length (unicode_isalpha : N -> bool)
    (unicode_upper : N -> str) (countries_get : str -> option str)
    (worlds : nat -> world) (emails : list str) (schedule : list nat)
    (results : list verification) :
  verify_bulk_emails unicode_isalpha unicode_upper countries_get
    worlds emails schedule = Ret results ->
  length results = length emails.
Proof.
  unfold verify_bulk_emails. intros Hret.
  destruct (gather _) as [vs|e|] eqn:Hgather;
    [|destruct (existsb _ _); discriminate|discriminate].
  injection Hret as ->.
  apply gather_inv, run_workers_returned, (f_equal length) in Hgather.
  now rewrite length_imap, length_fmap in Hgather.
Qed.

(** [main] writes a file only in a run in which the input file was read
    and every pipeline run returned: the file is [valid_emails.txt] and it
    holds the accepted addresses.  After it is written the results are
    shown, one line each: either all of them, and [main] returns, or those
    before the first line whose [print] raises, and that exception leaves
    [main] with the file written. *)
Theorem main_saves_after_all (unicode_isalpha : N -> bool)
    (unicode_upper : N -> str) (countries_get : str -> option str)
    (unicode_isspace : N -> bool) (Fore_GREEN Fore_RED : str)
    (fs : filesystem) (term : terminal) (worlds : nat -> world)
    (schedule : list nat) (input_file : str) :
  saved (main unicode_isalpha unicode_upper countries_get unicode_isspace
           Fore_GREEN Fore_RED fs term worlds schedule input_file) <> [] ->
  exists text results,
    open_read fs input_file = Granted text
    /\ verify_bulk_emails unicode_isalpha unicode_upper countries_get worlds
         (read_emails unicode_isspace text) schedule = Ret results
    /\ length results = length (read_emails unicode_isspace text)
    /\ saved (main unicode_isalpha unicode_upper countries_get unicode_isspace
                Fore_GREEN Fore_RED fs term worlds schedule input_file)
       = [(py "valid_emails.txt", valid_lines results)]
    /\ ((ended (main unicode_isalpha unicode_upper countries_get
                  unicode_isspace Fore_GREEN Fore_RED fs term worlds schedule
                  input_file) = Returned
         /\ console (main unicode_isalpha unicode_upper countries_get
                       unicode_isspace Fore_GREEN Fore_RED fs term worlds
                       schedule input_file)
            = prompt :: List.map (report Fore_GREEN Fore_RED) results)
        \/ exists e before r rest,
             results = before ++ r :: rest
             /\ term (prompt :: List.map (report Fore_GREEN Fore_RED) before)
                  (report_text Fore_GREEN Fore_RED r) = Some e
             /\ ended (main unicode_isalpha unicode_upper countries_get
                         unicode_isspace Fore_GREEN Fore_RED fs term worlds
                         schedule input_file) = ConsoleError e
             /\ console (main unicode_isalpha unicode_upper countries_get
                           unicode_isspace Fore_GREEN Fore_RED fs term worlds
                           schedule input_file)
                = prompt :: List.map (report Fore_GREEN Fore_RED) before).
Proof.
  intros Hsaved.
  destruct (main_cases unicode_isalpha unicode_upper countries_get
              unicode_isspace Fore_GREEN Fore_RED fs term worlds schedule
              input_file)
    as [(Hnone & _) | [(Hrun & _)
                      | (text & results & Hread & Hbulk & Hfile & Hend)]].
  - contradiction.
  - rewrite Hrun in Hsaved. now contradiction Hsaved.
  - exists text, results. repeat split; try assumption.
    now apply bulk_length in Hbulk.
Qed.

Lemma main_saves_after_all_witness :
  (exists text results,
     open_read (one_file (py "leads.txt") (py "a@b.de" ++ [10] ++ py "bad"))
       (py "leads.txt") = Granted text
     /\ verify_bulk_emails ascii_only_isalpha ascii_only_upper sample_countries
          (fun _ => friendly) (read_emails ascii_only_isspace text) [1; 0]%nat
        = Ret results
     /\ length results = length (read_emails ascii_only_isspace text)
     /\ saved (sample_run steady)
        = [(py "valid_emails.txt", valid_lines results)]
     /\ ((ended (sample_run steady) = Returned
          /\ console (sample_run steady)
             = prompt :: List.map (report sample_green sample_red) results)
         \/ exists e before r rest,
              results = before ++ r :: rest
              /\ steady (prompt :: List.map (report sample_green sample_red)
                                     before)
                   (report_text sample_green sample_red r) = Some e
              /\ ended (sample_run steady) = ConsoleError e
              /\ console (sample_run steady)
                 = prompt :: List.map (report sample_green sample_red) before))
  /\ (exists text results,
        open_read (one_file (py "leads.txt") (py "a@b.de" ++ [10] ++ py "bad"))
          (py "leads.txt") = Granted text
        /\ verify_bulk_emails ascii_only_isalpha ascii_only_upper
             sample_countries (fun _ => friendly)
             (read_emails ascii_only_isspace text) [1; 0]%nat
           = Ret results
        /\ length results = length (read_emails ascii_only_isspace text)
        /\ saved (sample_run closing)
           = [(py "valid_emails.txt", valid_lines results)]
        /\ ((ended (sample_run closing) = Returned
             /\ console (sample_run closing)
                = prompt :: List.map (report sample_green sample_red) results)
            \/ exists e before r rest,
                 results = before ++ r :: rest
                 /\ closing (prompt :: List.map (report sample_green sample_red)
                                         before)
                      (report_text sample_green sample_red r) = Some e
                 /\ ended (sample_run closing) = ConsoleError e
                 /\ console (sample_run closing)
                    = prompt :: List.map (report sample_green sample_red)
                                  before)).
Proof.
  split.
  - apply (main_saves_after_all ascii_only_isalpha ascii_only_upper
             sample_countries ascii_only_isspace sample_green sample_red
             (one_file (py "leads.txt") (py "a@b.de" ++ [10] ++ py "bad"))
             steady (fun _ => friendly) [1; 0]%nat (py "leads.txt")).
    vm_compute. discriminate.
  - apply (main_saves_after_all ascii_only_isalpha ascii_only_upper
             sample_countries ascii_only_isspace sample_green sample_red
             (one_file (py "leads.txt") (py "a@b.de" ++ [10] ++ py "bad"))
             closing (fun _ => friendly) [1; 0]%nat (py "leads.txt")).
    vm_compute. discriminate.
Defined.

(** A run in which the terminal is gone after the first report line: the
    file is written, [main] does not return. *)
Example main_print_raises :
  sample_run closing
  = Run (ConsoleError BrokenPipeError)
      [(py "valid_emails.txt", py "a@b.de" ++ [10])]
      [prompt;
       report sample_green sample_red
         (Verification (py "a@b.de") true (py "Verified") (py "Germany"))].
Proof. vm_compute. reflexivity. Qed.

(** The file [main] writes can be its next input: read the same way, it
    gives the accepted addresses, in their order, and each of them is an
    address of the input file. *)
Theorem main_output_reads_back (unicode_isalpha : N -> bool)
    (unicode_upper : N -> str) (countries_get : str -> option str)
    (unicode_isspace : N -> bool) (Fore_GREEN Fore_RED : str)
    (fs : filesystem) (term : terminal) (worlds : nat -> world)
    (schedule : list nat) (input_file name content : str) :
  (name, content)
    ∈ saved (main unicode_isalpha unicode_upper countries_get unicode_isspace
               Fore_GREEN Fore_RED fs term worlds schedule input_file) ->
  exists text results,
    open_read fs input_file = Granted text
    /\ verify_bulk_emails unicode_isalpha unicode_upper countries_get worlds
         (read_emails unicode_isspace text) schedule = Ret results
    /\ read_emails unicode_isspace content
       = List.map v_email (List.filter v_is_valid results)
    /\ forall e,
         e ∈ read_emails unicode_isspace content ->
         e ∈ read_emails unicode_isspace text.
Proof.
  intros Hsaved.
  destruct (main_cases unicode_isalpha unicode_upper countries_get
              unicode_isspace Fore_GREEN Fore_RED fs term worlds schedule
              input_file)
    as [(Hnone & _) | [(Hrun & _)
                      | (text & results & Hread & Hbulk & Hfile & _)]].
  - rewrite Hnone in Hsaved. now apply not_elem_of_nil in Hsaved.
  - rewrite Hrun in Hsaved. now apply not_elem_of_nil in Hsaved.
  - rewrite Hfile in Hsaved.
    apply list_elem_of_singleton in Hsaved. injection Hsaved as -> ->.
    exists text, results.
    assert (Hback : read_emails unicode_isspace (valid_lines results)
                    = List.map v_email (List.filter v_is_valid results)).
    { apply valid_lines_read_back. intros r Hr Hv.
      destruct (bulk_results _ _ _ _ _ _ _ _ Hbulk Hr) as [Hin Hvalid].
      split; [auto|].
      now apply clean_no_final_line_feed with unicode_isspace,
        read_emails_are_clean with text. }
    repeat split; try assumption.
    intros e. rewrite Hback.
    intros (r & <- & [Hr _]%filter_In)%list_elem_of_In%in_map_iff.
    apply list_elem_of_In in Hr.
    now destruct (bulk_results _ _ _ _ _ _ _ _ Hbulk Hr).
Qed.

Lemma main_output_reads_back_witness :
  exists text results,
    open_read (one_file (py "leads.txt") (py "a@b.de" ++ [10] ++ py "bad"))
      (py "leads.txt") = Granted text
    /\ verify_bulk_emails ascii_only_isalpha ascii_only_upper sample_countries
         (fun _ => friendly) (read_emails ascii_only_isspace text) [1; 0]%nat
       = Ret results
    /\ read_emails ascii_only_isspace (py "a@b.de" ++ [10])
       = List.map v_email (List.filter v_is_valid results)
    /\ forall e,
         e ∈ read_emails ascii_only_isspace (py "a@b.de" ++ [10]) ->
         e ∈ read_emails ascii_only_isspace text.
Proof.
  apply (main_output_reads_back ascii_only_isalpha ascii_only_upper
           sample_countries ascii_only_isspace sample_green sample_red
           (one_file (py "leads.txt") (py "a@b.de" ++ [10] ++ py "bad"))
           steady (fun _ => friendly) [1; 0]%nat (py "leads.txt")
           (py "valid_emails.txt")).
  apply list_elem_of_In. vm_compute. auto.
Defined.



(** ** [get_country_by_domain], at the edges *)

Lemma country_of_last_label (unicode_isalpha : N -> bool)
    (unicode_upper : N -> str) (countries_get : str -> option str)
    (pre lbl : str) :
  chr "." ∉ lbl ->
  get_country_by_domain unicode_isalpha unicode_upper countries_get
    (pre ++ chr "." :: lbl)
  = if isalpha unicode_isalpha lbl && (length lbl =? 2)%nat
    then match countries_get (upper unicode_upper lbl) with
         | Some name => name
         | None => Unknown
         end
    else Unknown.
Proof.
  intros Hlbl. unfold get_country_by_domain, index_last.
  destruct (split_last_label (chr ".") pre lbl Hlbl) as (parts & Hne & ->).
  rewrite last_snoc, length_app.
  destruct parts as [|p ps]; [congruence|].
  cbn [length Nat.add Nat.ltb Nat.leb]. rewrite Nat.add_1_r. reflexivity.
Qed.

(** A domain written with its final dot, and the empty domain, give
    "Unknown", whatever the table holds. *)
Theorem get_country_by_domain_final_dot (unicode_isalpha : N -> bool)
    (unicode_upper : N -> str) (countries_get : str -> option str)
    (pre : str) :
  get_country_by_domain unicode_isalpha unicode_upper countries_get
    (pre ++ [chr "."]) = py "Unknown"
  /\ get_country_by_domain unicode_isalpha unicode_upper countries_get []
     = py "Unknown".
Proof.
  split; [|reflexivity].
  now rewrite country_of_last_label by apply not_elem_of_nil.
Qed.

Ltac leb_cases :=
  repeat match goal with
    | |- context [(?a <=? ?b)] => destruct (N.leb_spec a b); cbn [andb orb]
    end.

Lemma ascii_upper_facts (c : N) :
  c < 128 ->
  ascii_upper c < 128
  /\ ascii_upper (ascii_upper c) = ascii_upper c
  /\ ascii_isalpha (ascii_upper c) = ascii_isalpha c
  /\ (ascii_upper c = chr "." -> c = chr ".").
Proof.
  intros Hc. unfold ascii_upper, ascii_isalpha. literal_chars.
  destruct (N.leb_spec 97 c), (N.leb_spec c 122); cbn [andb];
    repeat split; leb_cases; intros; try reflexivity; lia.
Qed.

Section UpperCase.

Variable unicode_isalpha : N -> bool.
Variable unicode_upper : N -> str.

Lemma upper_ascii (s : str) :
  Forall (fun c => c < 128) s ->
  upper unicode_upper s = List.map ascii_upper s.
Proof.
  induction 1 as [|c s Hc _ IH]; [reflexivity|].
  unfold upper in *. cbn [flat_map List.map app].
  destruct (N.ltb_spec c 128); [|lia]. now rewrite IH.
Qed.

Lemma map_upper_ascii (s : str) :
  Forall (fun c => c < 128) s ->
  Forall (fun c => c < 128) (List.map ascii_upper s).
Proof.
  induction 1 as [|c s Hc _ IH]; constructor; [|assumption].
  now apply ascii_upper_facts.
Qed.

Lemma isalpha_upper (s : str) :
  Forall (fun c => c < 128) s ->
  isalpha unicode_isalpha (List.map ascii_upper s) = isalpha unicode_isalpha s.
Proof.
  intros Hs. unfold isalpha.
  assert (Hall : forallb (char_isalpha unicode_isalpha) (List.map ascii_upper s)
                 = forallb (char_isalpha unicode_isalpha) s).
  { induction Hs as [|c s Hc _ IH]; [reflexivity|].
    cbn [List.map forallb]. rewrite IH. f_equal. unfold char_isalpha.
    destruct (ascii_upper_facts c Hc) as (Hu & _ & Ha & _).
    destruct (N.ltb_spec c 128); [|lia].
    destruct (N.ltb_spec (ascii_upper c) 128); [|lia]. exact Ha. }
  destruct s; [reflexivity|]. exact Hall.
Qed.

Lemma upper_idempotent (s : str) :
  Forall (fun c => c < 128) s ->
  List.map ascii_upper (List.map ascii_upper s) = List.map ascii_upper s.
Proof.
  induction 1 as [|c s Hc _ IH]; [reflexivity|].
  cbn [List.map]. rewrite IH. f_equal. now apply ascii_upper_facts.
Qed.

Lemma upper_keeps_dots_out (s : str) :
  Forall (fun c => c < 128) s ->
  chr "." ∉ s -> chr "." ∉ List.map ascii_upper s.
Proof.
  induction 1 as [|c s Hc _ IH]; [auto|].
  cbn [List.map]. rewrite !not_elem_of_cons. intros [Hne Hs].
  split; [|auto]. intros Heq. apply Hne. symmetry.
  now apply ascii_upper_facts.
Qed.

End UpperCase.

(** The country depends on the last label alone and, for an ASCII label,
    not on its case: what stands before the last dot may change, and the
    label may be written in capitals. *)
Theorem get_country_by_domain_ignores_case (unicode_isalpha : N -> bool)
    (unicode_upper : N -> str) (countries_get : str -> option str)
    (pre pre' lbl : str) :
  Forall (fun c => c < 128) lbl ->
  chr "." ∉ lbl ->
  get_country_by_domain unicode_isalpha unicode_upper countries_get
    (pre' ++ chr "." :: List.map ascii_upper lbl)
  = get_country_by_domain unicode_isalpha unicode_upper countries_get
      (pre ++ chr "." :: lbl).
Proof.
  intros Hascii Hdot.
  rewrite !country_of_last_label
    by (assumption || now apply upper_keeps_dots_out).
  rewrite isalpha_upper, length_map by assumption.
  rewrite !upper_ascii by (assumption || now apply map_upper_ascii).
  now rewrite upper_idempotent.
Qed.

Lemma get_country_by_domain_ignores_case_witness :
  get_country_by_domain ascii_only_isalpha ascii_only_upper sample_countries
    (py "MAIL.EXAMPLE" ++ chr "." :: List.map ascii_upper (py "de"))
  = get_country_by_domain ascii_only_isalpha ascii_only_upper sample_countries
      (py "example" ++ chr "." :: py "de").
Proof.
  apply get_country_by_domain_ignores_case.
  - repeat constructor.
  - apply (run_of_avoids label_set); reflexivity.
Defined.

(** ** More on the syntax check and on [domain_exists] *)

(** An accepted address is made, up to a final line feed, of at least five
    characters, all of them ASCII between [+] and [z]: no whitespace, no
    control character, nothing beyond ASCII. *)
Theorem is_valid_email_ascii (email : str) :
  is_valid_email email = true ->
  exists body nl,
    email = body ++ nl /\ (nl = [] \/ nl = [10])
    /\ Forall (fun c => 43 <= c <= 122) body
    /\ (5 <= length body)%nat.
Proof.
  intros (body & nl & -> & Hnl & Hbody)%is_valid_email_iff.
  exists body, nl. repeat split; try assumption.
  - now apply code_pattern_range.
  - destruct Hbody as (l & d & t & -> & [Hl _] & [Hd _] & [Ht _]).
    rewrite length_app. cbn [length]. rewrite length_app. cbn [length].
    destruct l, d, t; try congruence. cbn [length]. lia.
Qed.

Lemma is_valid_email_ascii_witness :
  exists body nl,
    py "a@b.c" = body ++ nl /\ (nl = [] \/ nl = [10])
    /\ Forall (fun c => 43 <= c <= 122) body
    /\ (5 <= length body)%nat.
Proof. apply is_valid_email_ascii. reflexivity. Defined.

(** [domain_exists] is true exactly when the A lookup is answered, false
    exactly for NXDOMAIN, and hands on every other error of the resolver;
    it always comes to an end. *)
Theorem domain_exists_outcome (w : world) (domain : str) (st : state) :
  (fst (domain_exists w domain st) = Ret true <->
     exists answer, dns w (log st) domain RdA = Ok answer)
  /\ (fst (domain_exists w domain st) = Ret false <->
        dns w (log st) domain RdA = Fails NXDOMAIN)
  /\ (forall e,
        fst (domain_exists w domain st) = Raise e <->
        (dns w (log st) domain RdA = Fails e /\ e <> NXDOMAIN)
        \/ (dns w (log st) domain RdA = Silent /\ e = LifetimeTimeout))
  /\ fst (domain_exists w domain st) <> Hang.
Proof.
  rewrite domain_exists_eval. cbn [fst].
  destruct (dns w (log st) domain RdA) as [answer|e|].
  - repeat split; try discriminate; eauto;
      try (intros [[? _]|[? _]]; discriminate).
  - split; [|split; [|split; [intros e'|]]].
    + split; [destruct e; discriminate | intros [? ?]; discriminate].
    + split; [destruct e; try discriminate; auto | now intros [= ->]].
    + split.
      * destruct e; try discriminate; intros [= <-]; left;
          split; (reflexivity || discriminate).
      * intros [([= ->] & Hnx)|[? _]]; [|discriminate].
        destruct e'; congruence.
    + destruct e; discriminate.
  - split; [|split; [|split; [intros e|]]]; try split; try discriminate;
      try (intros [? ?]; discriminate).
    + intros [= <-]. now right.
    + intros [[? _]|[_ ->]]; [discriminate | reflexivity].
Qed.

(** ** The prober, on every way out *)

Ltac probe_run :=
  repeat first
    [ progress cbv beta iota zeta
    | progress (repeat rewrite <- app_assoc; cbn [app])
    | match goal with H : dns _ _ _ _ = _ |- _ => rewrite H end
    | match goal with H : smtp_open _ _ _ = _ |- _ => rewrite H end
    | match goal with H : smtp_reply _ _ _ = _ |- _ => rewrite H end ].

Lemma explicit_rejection_false (w : world) (email domain : str) (st : state) :
  get_domain email = Some domain ->
  explicit_rejection w email domain st ->
  fst (smtp_verify w email st) = Ret false.
Proof.
  intros Hdom (mx & others & r1 & r2 & code & message & r4
               & Hmx & Hopen & Hhelo & Hmail & Hrcpt & Hcode & Hquit).
  rewrite smtp_verify_eval, Hdom. probe_run. cbn [fst].
  apply Z.eqb_neq in Hcode. now rewrite Hcode.
Qed.

Lemma probe_failure_false (w : world) (email domain : str) (st : state) :
  get_domain email = Some domain ->
  probe_failure w email domain st ->
  fst (smtp_verify w email st) = Ret false.
Proof.
  intros Hdom Hfail. rewrite smtp_verify_eval, Hdom.
  destruct Hfail as [Hmx | [[e Hmx] | [Hmx | (mx & others & Hmx & Hfail)]]];
    try (probe_run; reflexivity).
  destruct Hfail as [[e Hopen] | (Hopen & Hfail)];
    [probe_run; reflexivity|].
  destruct Hfail as [[e Hhelo] | (r1 & Hhelo & Hfail)];
    [probe_run; reflexivity|].
  destruct Hfail as [[e Hmail] | (r2 & Hmail & Hfail)];
    [probe_run; reflexivity|].
  destruct Hfail as [[e Hrcpt] | ([code message] & e & Hrcpt & Hquit)];
    probe_run; reflexivity.
Qed.

(** C5 (amended): the pipeline has one status for a probe that does not
    succeed.  The prober raises nothing and answers False both when the
    exchanger answers RCPT with a code other than 250 and when the probe
    cannot be completed (no record from the MX lookup, or an error of the
    connection or of a command); and whenever it answers False the result
    is "Email Not Verified", not accepted, with the country inferred from
    the domain. *)
Theorem probe_failure_single_status (unicode_isalpha : N -> bool)
    (unicode_upper : N -> str) (countries_get : str -> option str)
    (w : world) (email domain : str) (st st1 st2 : state) :
  is_valid_email email = true ->
  get_domain email = Some domain ->
  domain_exists w domain st = (Ret true, st1) ->
  has_mx_records w domain st1 = (Ret true, st2) ->
  (forall e, fst (smtp_verify w email st2) <> Raise e)
  /\ (forall st3,
        smtp_verify w email st2 = (Ret false, st3) ->
        verify_email unicode_isalpha unicode_upper countries_get w email st =
        (Ret (Verification email false (py "Email Not Verified")
                (get_country_by_domain unicode_isalpha unicode_upper
                   countries_get domain)),
         st3))
  /\ (explicit_rejection w email domain st2 ->
      fst (smtp_verify w email st2) = Ret false
      /\ fst (verify_email unicode_isalpha unicode_upper countries_get
                w email st)
         = Ret (Verification email false (py "Email Not Verified")
                  (get_country_by_domain unicode_isalpha unicode_upper
                     countries_get domain)))
  /\ (probe_failure w email domain st2 ->
      fst (smtp_verify w email st2) = Ret false
      /\ fst (verify_email unicode_isalpha unicode_upper countries_get
                w email st)
         = Ret (Verification email false (py "Email Not Verified")
                  (get_country_by_domain unicode_isalpha unicode_upper
                     countries_get domain))).
Proof.
  intros Hvalid Hdom Hex Hmx.
  assert (Hpipe : forall st3,
            smtp_verify w email st2 = (Ret false, st3) ->
            verify_email unicode_isalpha unicode_upper countries_get w email st
            = (Ret (Verification email false (py "Email Not Verified")
                      (get_country_by_domain unicode_isalpha unicode_upper
                         countries_get domain)), st3)).
  { intros st3 Hprobe.
    now rewrite (verify_email_valid _ _ _ _ _ _ _ Hvalid Hdom), Hex, Hmx,
      Hprobe. }
  assert (Hfalse : fst (smtp_verify w email st2) = Ret false ->
            fst (smtp_verify w email st2) = Ret false
            /\ fst (verify_email unicode_isalpha unicode_upper countries_get
                      w email st)
               = Ret (Verification email false (py "Email Not Verified")
                        (get_country_by_domain unicode_isalpha unicode_upper
                           countries_get domain))).
  { intros Hprobe. split; [assumption|].
    destruct (smtp_verify w email st2) as [r st3] eqn:Hrun.
    cbn [fst] in Hprobe. subst r. now rewrite (Hpipe st3 eq_refl). }
  split; [|split; [exact Hpipe | split]].
  - intros e. now apply smtp_verify_never_raises with domain.
  - intros Hrej. now apply Hfalse, explicit_rejection_false with domain.
  - intros Hfail. now apply Hfalse, probe_failure_false with domain.
Qed.

Lemma probe_failure_single_status_witness :
  (fst (smtp_verify rejecting (py "user@example.de")
          (State [Resolve (py "example.de") RdA; Resolve (py "example.de") RdMX]
             0)) = Ret false
   /\ fst (verify_email ascii_only_isalpha ascii_only_upper sample_countries
             rejecting (py "user@example.de") st0)
      = Ret (Verification (py "user@example.de") false
               (py "Email Not Verified")
               (get_country_by_domain ascii_only_isalpha ascii_only_upper
                  sample_countries (py "example.de"))))
  /\ (fst (smtp_verify refusing (py "user@example.de")
             (State [Resolve (py "example.de") RdA;
                     Resolve (py "example.de") RdMX] 0)) = Ret false
      /\ fst (verify_email ascii_only_isalpha ascii_only_upper sample_countries
                refusing (py "user@example.de") st0)
         = Ret (Verification (py "user@example.de") false
                  (py "Email Not Verified")
                  (get_country_by_domain ascii_only_isalpha ascii_only_upper
                     sample_countries (py "example.de"))))
  /\ (fst (smtp_verify hanging_up (py "user@example.de")
             (State [Resolve (py "example.de") RdA;
                     Resolve (py "example.de") RdMX] 0)) = Ret false
      /\ fst (verify_email ascii_only_isalpha ascii_only_upper sample_countries
                hanging_up (py "user@example.de") st0)
         = Ret (Verification (py "user@example.de") false
                  (py "Email Not Verified")
                  (get_country_by_domain ascii_only_isalpha ascii_only_upper
                     sample_countries (py "example.de")))).
Proof.
  split; [|split].
  - apply (proj1 (proj2 (proj2 (probe_failure_single_status ascii_only_isalpha
             ascii_only_upper sample_countries rejecting
             (py "user@example.de") (py "example.de") st0 _ _
             eq_refl eq_refl eq_refl eq_refl)))).
    exists (py "mx.example.com."), [], (250%Z, py "OK"), (250%Z, py "OK"),
      550%Z, (py "No such user"), (250%Z, py "OK").
    repeat split; discriminate.
  - apply (proj2 (proj2 (proj2 (probe_failure_single_status ascii_only_isalpha
             ascii_only_upper sample_countries refusing
             (py "user@example.de") (py "example.de") st0 _ _
             eq_refl eq_refl eq_refl eq_refl)))).
    right. right. right. exists (py "mx.example.com."), [].
    split; [reflexivity|]. left. now exists ConnectionRefusedError.
  - apply (proj2 (proj2 (proj2 (probe_failure_single_status ascii_only_isalpha
             ascii_only_upper sample_countries hanging_up
             (py "user@example.de") (py "example.de") st0 _ _
             eq_refl eq_refl eq_refl eq_refl)))).
    right. right. right. exists (py "mx.example.com."), [].
    split; [reflexivity|]. right. split; [reflexivity|].
    right. exists (250%Z, py "OK"). split; [reflexivity|].
    right. exists (250%Z, py "OK"). split; [reflexivity|].
    right. exists (250%Z, py "OK"), SMTPServerDisconnected.
    split; reflexivity.
Defined.



(** The socket is open as long as the session goes on: after RCPT is
    answered and before QUIT, it is still connected. *)
Example socket_open_before_quit :
  socket_after friendly []
    [Resolve (py "example.com") RdMX; Connect (py "mx.example.com.");
     Command HELO; Command (MAIL (py "test@example.com"));
     Command (RCPT (py "user@example.com"))] Unopened = Connected.
Proof. reflexivity. Qed.
